(** * run.py: the camera session, the capture loop and the stream generator

    A shallow embedding of the Flask application in [run.py].  The module
    globals [camera], [output_frame], [detection_enabled] and [model] become
    the fields of one [State] record that every handler threads through.
    Numpy frames are mutable buffers that the code aliases and copies, so
    frames live in a [heap] of buffers and the code passes locations around.
    A background [capture_frames] thread is a program counter stored in the
    state; it advances one blocking point at a time, interleaved with the
    request handlers.  What the outside world answers (does the webcam open,
    does the detector raise, what does the request body hold) is supplied to
    each call as an explicit environment argument.

    Granularity.  A route runs as one step.  A capture thread runs as four:
    its entry (l.89-99), the loop head up to the call of [camera.read()]
    (l.101-106), the return of [camera.read()] (l.106-113), and the rest of
    the pass (l.115-147); the routes and other threads may run between any
    two of them.  Where a property depends on what can happen inside the
    last of these, the pass is taken apart further, into the stretch that
    detects (l.115-117), the one that draws the status text (l.119-128),
    the one that draws the address (l.130-139) and the publish
    (l.141-143), and the generator into its locked block (l.154-166) and
    its [yield] (l.169-170).  Below this granularity, and not covered: a
    stop between the test of l.102 and the call of l.106, and the two
    assignments of [load_model] (l.29, l.31-34) seen from a second
    thread.  Logging is left out and JSON numbers are integers. *)

From stdpp Require Import base option list strings gmap.
From Stdlib Require Import ZArith Lia.

Local Open Scope string_scope.
Local Open Scope Z_scope.

(** ** Python values, JSON bodies and responses *)

#[local] Unset Elimination Schemes.
Inductive pyval : Type :=
| PyNone
| PyBool (b : bool)
| PyInt (z : Z)
| PyStr (s : string)
| PyList (l : list pyval)
| PyDict (d : list (string * pyval)).
#[local] Set Elimination Schemes.

(** Python truth value, as used by [not x] and by [a if x else b]. *)
Definition truthy (v : pyval) : bool :=
  match v with
  | PyNone => false
  | PyBool b => b
  | PyInt z => negb (z =? 0)
  | PyStr s => negb (String.eqb s EmptyString)
  | PyList l => match l with [] => false | _ => true end
  | PyDict d => match d with [] => false | _ => true end
  end.

Definition py_type_name (v : pyval) : string :=
  match v with
  | PyNone => "NoneType"
  | PyBool _ => "bool"
  | PyInt _ => "int"
  | PyStr _ => "str"
  | PyList _ => "list"
  | PyDict _ => "dict"
  end.

(** [d.get(key, default)] on a dict kept as an association list. *)
Fixpoint dict_get (key : string) (default : pyval) (d : list (string * pyval)) : pyval :=
  match d with
  | [] => default
  | (k, v) :: rest => if String.eqb k key then v else dict_get key default rest
  end.

(** The result of a call that may raise; [Raises] carries [str(e)]. *)
Inductive outcome (A : Type) : Type :=
| Returns (a : A)
| Raises (msg : string).
Arguments Returns {A} a.
Arguments Raises {A} msg.

(** A [jsonify]-ed dict literal: its keys in the order written. *)
Definition response : Type := list (string * pyval).

Definition field (key : string) (r : response) : option pyval :=
  match List.find (fun kv => String.eqb (fst kv) key) r with
  | Some kv => Some (snd kv)
  | None => None
  end.

Definition error_response (msg : string) : response :=
  [("status", PyStr ("Error: " +:+ msg)); ("success", PyBool false)].

(** The Flask request: [request.is_json] and what [request.json] does. *)
Record Request : Type := { is_json : bool; json : outcome pyval }.

(** [request.json.get('detection', True) if request.is_json else True] *)
Definition request_detection (r : Request) : outcome pyval :=
  if is_json r then
    match json r with
    | Raises e => Raises e
    | Returns (PyDict d) => Returns (dict_get "detection" (PyBool true) d)
    | Returns v =>
        Raises ("'" +:+ py_type_name v +:+ "' object has no attribute 'get'")
    end
  else Returns (PyBool true).

(** ** Frames *)

(** What [cv2.rectangle] and [cv2.putText] burn into a buffer.  The font is
    always [FONT_HERSHEY_SIMPLEX]; the font scale is kept in hundredths. *)
Inductive draw : Type :=
| Rectangle (pt1 pt2 : Z * Z) (color : Z * Z * Z) (thickness : Z)
| PutText (text : string) (org : Z * Z) (scale100 : Z) (color : Z * Z * Z) (thickness : Z).

(** A numpy frame: what the camera delivered ([pixels], [height] is
    [frame.shape[0]]) and the drawing calls applied to it since, oldest
    first. *)
Record image : Type := { pixels : N; height : Z; drawn : list draw }.

Definition add_draw (d : draw) (im : image) : image :=
  {| pixels := pixels im; height := height im; drawn := drawn im ++ [d] |}.

Definition is_box (d : draw) : bool :=
  match d with Rectangle _ _ _ _ => true | PutText _ _ _ _ _ => false end.

(** A float as [int(...)] sees it: its truncation, or a NaN or an
    infinity, on which [int] raises. *)
Inductive pyfloat : Type :=
| Finite (truncated : Z)
| NotFinite.

Definition py_int (x : pyfloat) : outcome Z :=
  match x with
  | Finite z => Returns z
  | NotFinite => Raises "cannot convert float to integer"
  end.

(** One row of [results.pandas().xyxy[0]]: the four corners as floats and
    the confidence already rendered by [:.2f]. *)
Record Detection : Type :=
  { xmin : pyfloat; ymin : pyfloat; xmax : pyfloat; ymax : pyfloat;
    name : string; confidence : string }.

(** OpenCV takes the coordinates of a point as C [int]s and raises on a
    Python integer that does not fit. *)
Definition c_int (z : Z) : bool := (-2147483648 <=? z) && (z <=? 2147483647).

Definition cv_point (pt : Z * Z) : bool := c_int (fst pt) && c_int (snd pt).

Abbreviation loc := nat.

(** ** The module globals *)

Record Model : Type := { conf : Z; iou : Z; classes : option (list Z); max_det : Z }.

Record VideoCapture : Type := { handle : nat; isOpened : bool }.

(** Where a [capture_frames] thread stands. *)
Inductive capture_pc : Type :=
| AtEntry                                   (* the thread was started *)
| AtLoopHead (frame_count : nat)            (* [while True:] *)
| InRead (frame_count : nat)                (* inside [camera.read()] *)
| HasFrame (frame_count : nat) (frame : loc) (* [success] held, before l.116 *)
| Finished.                                 (* returned or left the loop *)

Record State : Type := {
  camera : option VideoCapture;
  output_frame : option loc;
  detection_enabled : pyval;
  model : option Model;
  heap : list image;               (* every numpy buffer allocated so far *)
  threads : list capture_pc;       (* the capture threads ever started *)
  model_file : bool;               (* [os.path.exists('yolov5s.pt')] *)
  captures_created : nat           (* calls of [cv2.VideoCapture(0)] so far *)
}.

Definition set_camera (c : option VideoCapture) (st : State) : State :=
  {| camera := c; output_frame := output_frame st;
     detection_enabled := detection_enabled st; model := model st;
     heap := heap st; threads := threads st; model_file := model_file st;
     captures_created := captures_created st |}.

Definition set_output_frame (f : option loc) (st : State) : State :=
  {| camera := camera st; output_frame := f;
     detection_enabled := detection_enabled st; model := model st;
     heap := heap st; threads := threads st; model_file := model_file st;
     captures_created := captures_created st |}.

Definition set_detection_enabled (d : pyval) (st : State) : State :=
  {| camera := camera st; output_frame := output_frame st;
     detection_enabled := d; model := model st;
     heap := heap st; threads := threads st; model_file := model_file st;
     captures_created := captures_created st |}.

Definition set_model (m : option Model) (st : State) : State :=
  {| camera := camera st; output_frame := output_frame st;
     detection_enabled := detection_enabled st; model := m;
     heap := heap st; threads := threads st; model_file := model_file st;
     captures_created := captures_created st |}.

Definition set_heap (h : list image) (st : State) : State :=
  {| camera := camera st; output_frame := output_frame st;
     detection_enabled := detection_enabled st; model := model st;
     heap := h; threads := threads st; model_file := model_file st;
     captures_created := captures_created st |}.

Definition set_threads (t : list capture_pc) (st : State) : State :=
  {| camera := camera st; output_frame := output_frame st;
     detection_enabled := detection_enabled st; model := model st;
     heap := heap st; threads := t; model_file := model_file st;
     captures_created := captures_created st |}.

Definition set_captures_created (n : nat) (st : State) : State :=
  {| camera := camera st; output_frame := output_frame st;
     detection_enabled := detection_enabled st; model := model st;
     heap := heap st; threads := threads st; model_file := model_file st;
     captures_created := n |}.

(** The globals as the module body leaves them (l.17-21); whether the model
    file is on disk is a fact of the machine. *)
Definition initial (file_on_disk : bool) : State :=
  {| camera := None; output_frame := None; detection_enabled := PyBool true;
     model := None; heap := []; threads := []; model_file := file_on_disk;
     captures_created := 0%nat |}.

(** ** External collaborators *)

(** [load_model] (l.24-39): [torch.hub.load] either returns the network,
    which is then configured and stored in the global, or raises, which is
    logged and answered by [None]. *)
Definition yolov5s : Model :=
  {| conf := 45; iou := 45; classes := None; max_det := 50 |}.

Definition load_model (hub_load : outcome unit) (st : State) : State * option Model :=
  match hub_load with
  | Returns _ => (set_model (Some yolov5s) st, Some yolov5s)
  | Raises _ => (st, None)
  end.

(** [check_model_file] (l.42-47) *)
Definition check_model_file (st : State) : bool :=
  if negb (model_file st) then false else true.

(** [get_ip_address] (l.173-183): the socket calls succeed with an address
    or raise. *)
Definition get_ip_address (sock : outcome string) : string :=
  match sock with
  | Returns ip => ip
  | Raises _ => "127.0.0.1"
  end.

(** What the world answers during one step of a capture thread. *)
Record CaptureEnv : Type := {
  hub_load : outcome unit;              (* [torch.hub.load(...)] *)
  read : option (N * Z);                (* [camera.read()]: pixels and height *)
  infer : outcome (list Detection);     (* l.61-67: [cvtColor], [model(...)], [.pandas()] *)
  sock : outcome string                 (* the socket calls of [get_ip_address] *)
}.

(** ** Drawing on a buffer in place *)

Definition draw_on (frame : loc) (d : draw) (st : State) : State :=
  set_heap (alter (add_draw d) frame (heap st)) st.

(** The body of the [for] loop of [detect_objects] (l.70-79) for one row:
    the four [int(...)], then [cv2.rectangle], then [cv2.putText].  Each
    may raise; what was drawn before stays drawn. *)
Definition draw_detection (frame : loc) (st : State) (det : Detection)
  : State * outcome unit :=
  match py_int (xmin det), py_int (ymin det), py_int (xmax det), py_int (ymax det) with
  | Returns x1, Returns y1, Returns x2, Returns y2 =>
      if cv_point (x1, y1) && cv_point (x2, y2) then
        let st1 := draw_on frame (Rectangle (x1, y1) (x2, y2) (0, 255, 0) 2) st in
        if cv_point (x1, y1 - 10) then
          (draw_on frame
             (PutText (name det +:+ " " +:+ confidence det) (x1, y1 - 10)
                50 (0, 255, 0) 2) st1,
           Returns tt)
        else (st1, Raises "Can't parse 'org'")
      else (st, Raises "Can't parse 'pt1' or 'pt2'")
  | Raises e, _, _, _ => (st, Raises e)
  | _, Raises e, _, _ => (st, Raises e)
  | _, _, Raises e, _ => (st, Raises e)
  | _, _, _, Raises e => (st, Raises e)
  end.

(** The [for] loop of l.70-79: rows in order, up to the first that
    raises. *)
Fixpoint draw_detections (frame : loc) (st : State) (detections : list Detection)
  : State * outcome unit :=
  match detections with
  | [] => (st, Returns tt)
  | detection :: rest =>
      match draw_detection frame st detection with
      | (st1, Returns _) => draw_detections frame st1 rest
      | (st1, Raises e) => (st1, Raises e)
      end
  end.

(** [detect_objects] (l.50-83).  It returns the very buffer it was given. *)
Definition detect_objects (env : CaptureEnv) (frame : loc) (st : State) : State * loc :=
  let st1 :=
    match model st with
    | Some _ => st
    | None => let '(st', m) := load_model (hub_load env) st in set_model m st'
    end in
  match model st1 with
  | None => (st1, frame)
  | Some _ =>
      match infer env with
      | Raises _ => (st1, frame)
      | Returns detections => (fst (draw_detections frame st1 detections), frame)
      end
  end.

(** ** The capture thread *)

Definition set_pc (tid : nat) (pc : capture_pc) (st : State) : State :=
  set_threads (<[tid := pc]> (threads st)) st.

(** The status text of l.120-128 and the address text of l.131-139. *)
Definition status_overlay (enabled : pyval) : draw :=
  PutText ("Detection: " +:+ (if truthy enabled then "ON" else "OFF"))
    (10, 30) 80 (0, 0, 255) 2.

Definition address_overlay (sock : outcome string) (shape0 : Z) : draw :=
  PutText ("Access: http://" +:+ get_ip_address sock +:+ ":5000")
    (10, shape0 - 10) 60 (255, 255, 255) 1.

(** Lines 115-143 of [capture_frames], run on the buffer [camera.read()]
    handed back: detection when enabled, the status text, the address text,
    then [output_frame = frame.copy()] under the lock.  A [frame] outside the
    heap has no Python counterpart ([exec_well_formed] below rules it out);
    the model then publishes nothing. *)
Definition annotate_and_publish (env : CaptureEnv) (frame : loc) (st : State) : State :=
  let '(st1, frame1) :=
    if truthy (detection_enabled st) then detect_objects env frame st
    else (st, frame) in
  let st2 := draw_on frame1 (status_overlay (detection_enabled st1)) st1 in
  let shape0 := from_option height 0 (heap st2 !! frame1) in
  let st3 := draw_on frame1 (address_overlay (sock env) shape0) st2 in
  match heap st3 !! frame1 with
  | Some im => set_output_frame (Some (length (heap st3))) (set_heap (heap st3 ++ [im]) st3)
  | None => st3
  end.

(** One step of thread [tid] of [capture_frames] (l.86-147), from one
    blocking point to the next. *)
Definition capture_frames (env : CaptureEnv) (tid : nat) (st : State) : State :=
  match threads st !! tid with
  | None => st
  | Some AtEntry =>
      if negb (check_model_file st) then set_pc tid Finished st
      else
        let st1 :=
          match model st with
          | None => fst (load_model (hub_load env) st)
          | Some _ => st
          end in
        set_pc tid (AtLoopHead 0) st1
  | Some (AtLoopHead n) =>
      match camera st with
      | None => set_pc tid Finished st
      | Some _ => set_pc tid (InRead n) st
      end
  | Some (InRead n) =>
      match read env with
      | None =>
          match camera st with
          | Some _ => set_pc tid (AtLoopHead n) st
          | None => set_pc tid Finished st
          end
      | Some (px, h) =>
          let frame := length (heap st) in
          set_pc tid (HasFrame n frame)
            (set_heap (heap st ++ [{| pixels := px; height := h; drawn := [] |}]) st)
      end
  | Some (HasFrame n frame) =>
      set_pc tid (AtLoopHead (S n)) (annotate_and_publish env frame st)
  | Some Finished => st
  end.

(** ** The stream generator *)

Definition crlf : string := String (Ascii.ascii_of_nat 13) (String (Ascii.ascii_of_nat 10) EmptyString).

Definition multipart_chunk (encoded_frame : string) : string :=
  "--frame" +:+ crlf +:+ "Content-Type: image/jpeg" +:+ crlf +:+ crlf
    +:+ encoded_frame +:+ crlf.

(** A generator object of [generate]: at the top of its loop, suspended at
    the [yield] with a chunk handed out, or exhausted. *)
Inductive gen_pc : Type :=
| GenLoop
| GenYielded (chunk : string)
| GenReturned.

(** One resumption of [generate] (l.150-170) against the globals [st]:
    from the loop top through one pass of the body; [imencode] is what
    [cv2.imencode] answers for the frame in the slot. *)
Definition generate (imencode : outcome (bool * string)) (st : State) (g : gen_pc) : gen_pc :=
  match g with
  | GenReturned => GenReturned
  | GenLoop | GenYielded _ =>
      match output_frame st with
      | None => GenLoop
      | Some _ =>
          match imencode with
          | Raises _ => GenLoop
          | Returns (flag, encoded_frame) =>
              if negb flag then GenLoop
              else GenYielded (multipart_chunk encoded_frame)
          end
      end
  end.

(** A generator driven for as many passes as there are observations; each
    pass sees the globals of its moment.  The chunks handed out are
    collected in order. *)
Fixpoint generate_run (obs : list (State * outcome (bool * string))) (g : gen_pc)
  : gen_pc * list string :=
  match obs with
  | [] => (g, [])
  | (st, enc) :: rest =>
      let g1 := generate enc st g in
      let '(g2, chunks) := generate_run rest g1 in
      (g2, match g1 with GenYielded c => c :: chunks | _ => chunks end)
  end.

(** ** The routes *)

Record StartEnv : Type := {
  video_capture : outcome bool;     (* [cv2.VideoCapture(0)], then [isOpened()] *)
  request : Request;
  thread_start : outcome unit       (* [threading.Thread(...).start()] *)
}.

(** [start_camera] (l.196-220) *)
Definition start_camera (env : StartEnv) (st : State) : State * response :=
  match camera st with
  | Some _ => (st, [("status", PyStr "Camera is already running")])
  | None =>
      match video_capture env with
      | Raises e => (st, error_response e)
      | Returns opened =>
          let st1 :=
            set_captures_created (S (captures_created st))
              (set_camera (Some {| handle := captures_created st; isOpened := opened |}) st) in
          if negb opened then
            (st1, [("status", PyStr "Failed to open camera"); ("success", PyBool false)])
          else
            match request_detection (request env) with
            | Raises e => (st1, error_response e)
            | Returns d =>
                let st2 := set_detection_enabled d st1 in
                match thread_start env with
                | Raises e => (st2, error_response e)
                | Returns _ =>
                    (set_threads (threads st2 ++ [AtEntry]) st2,
                     [("status", PyStr "Camera started successfully");
                      ("success", PyBool true)])
                end
            end
      end
  end.

(** [stop_camera] (l.222-243); [release] is what [camera.release()] does. *)
Definition stop_camera (release : outcome unit) (st : State) : State * response :=
  match camera st with
  | None => (st, [("status", PyStr "Camera is not running"); ("success", PyBool false)])
  | Some _ =>
      match release with
      | Raises e => (st, error_response e)
      | Returns _ =>
          (set_output_frame None (set_camera None st),
           [("status", PyStr "Camera stopped successfully"); ("success", PyBool true)])
      end
  end.

(** [toggle_detection] (l.245-263) *)
Definition toggle_detection (st : State) : State * response :=
  match camera st with
  | None => (st, [("status", PyStr "Camera is not running"); ("success", PyBool false)])
  | Some _ =>
      let st1 := set_detection_enabled (PyBool (negb (truthy (detection_enabled st)))) st in
      (st1,
       [("status", PyStr "Detection toggled successfully");
        ("detection_enabled", detection_enabled st1);
        ("success", PyBool true)])
  end.

(** [get_status] (l.265-275) *)
Definition get_status (sock : outcome string) (st : State) : State * response :=
  let camera_running := match camera st with Some _ => true | None => false end in
  (st,
   [("camera_running", PyBool camera_running);
    ("detection_enabled", if camera_running then detection_enabled st else PyBool false);
    ("server_ip", PyStr (get_ip_address sock))]).

(** ** Interleavings *)

Inductive event : Type :=
| StartCamera (env : StartEnv)
| StopCamera (release : outcome unit)
| ToggleDetection
| GetStatus (sock : outcome string)
| CaptureThread (tid : nat) (env : CaptureEnv).

Definition step (ev : event) (st : State) : State * option response :=
  match ev with
  | StartCamera env => let '(st', r) := start_camera env st in (st', Some r)
  | StopCamera release => let '(st', r) := stop_camera release st in (st', Some r)
  | ToggleDetection => let '(st', r) := toggle_detection st in (st', Some r)
  | GetStatus sock => let '(st', r) := get_status sock st in (st', Some r)
  | CaptureThread tid env => (capture_frames env tid st, None)
  end.

Fixpoint run (evs : list event) (st : State) : State * list (option response) :=
  match evs with
  | [] => (st, [])
  | ev :: rest =>
      let '(st1, r) := step ev st in
      let '(st2, rs) := run rest st1 in
      (st2, r :: rs)
  end.

Definition exec (evs : list event) (st : State) : State := fst (run evs st).

(** ** The session of the specification *)

(** Section 3 of the specification keeps a [state] next to the camera
    handle.  The code has no such variable; this is the specification's
    reading, driven by what the routes report: the session is [Running]
    from a start that reported success until a stop that reported
    success. *)
Inductive Session : Type := Stopped | Running.

Definition succeeded (r : response) : bool :=
  match field "success" r with
  | Some (PyBool true) => true
  | _ => false
  end.

Definition session_step (s : Session) (ev : event) (r : option response) : Session :=
  match ev, r with
  | StartCamera _, Some r => if succeeded r then Running else s
  | StopCamera _, Some r => if succeeded r then Stopped else s
  | _, _ => s
  end.

Fixpoint session_after (s : Session) (evs : list event) (rs : list (option response)) : Session :=
  match evs, rs with
  | ev :: evs', r :: rs' => session_after (session_step s ev r) evs' rs'
  | _, _ => s
  end.

Definition session_of (evs : list event) (st : State) : Session :=
  session_after Stopped evs (snd (run evs st)).

(** The shape [{status: string, success: bool}] of section 6. *)
Definition has_status_and_success (r : response) : bool :=
  match field "status" r, field "success" r with
  | Some (PyStr _), Some (PyBool _) => true
  | _, _ => false
  end.

(** ** Concrete worlds used in the examples *)

Definition no_body : Request := {| is_json := false; json := Returns PyNone |}.

Definition webcam_ok : StartEnv :=
  {| video_capture := Returns true; request := no_body; thread_start := Returns tt |}.

Definition webcam_missing : StartEnv :=
  {| video_capture := Returns false; request := no_body; thread_start := Returns tt |}.

Definition person : Detection :=
  {| xmin := Finite 40; ymin := Finite 60; xmax := Finite 200; ymax := Finite 400;
     name := "person"; confidence := "0.91" |}.

Definition world_ok (px : N) : CaptureEnv :=
  {| hub_load := Returns tt; read := Some (px, 480);
     infer := Returns [person]; sock := Returns "192.168.1.20" |}.

Definition world_detector_down (px : N) : CaptureEnv :=
  {| hub_load := Returns tt; read := Some (px, 480);
     infer := Raises "inference failed"; sock := Returns "192.168.1.20" |}.

Definition jpeg_ok : outcome (bool * string) := Returns (true, "JFIF").

(** ** How drawing changes the heap *)

Definition add_draws (ds : list draw) (im : image) : image :=
  {| pixels := pixels im; height := height im; drawn := drawn im ++ ds |}.

(** The drawing calls one detection row causes, in order, and whether
    the row goes through without raising. *)
Definition detection_draws (det : Detection) : list draw * bool :=
  match xmin det, ymin det, xmax det, ymax det with
  | Finite x1, Finite y1, Finite x2, Finite y2 =>
      if cv_point (x1, y1) && cv_point (x2, y2) then
        if cv_point (x1, y1 - 10) then
          ([Rectangle (x1, y1) (x2, y2) (0, 255, 0) 2;
            PutText (name det +:+ " " +:+ confidence det) (x1, y1 - 10)
              50 (0, 255, 0) 2], true)
        else ([Rectangle (x1, y1) (x2, y2) (0, 255, 0) 2], false)
      else ([], false)
  | _, _, _, _ => ([], false)
  end.

(** The drawing calls a list of rows causes: those of each row up to and
    including the first row that raises. *)
Fixpoint detections_draws (dets : list Detection) : list draw :=
  match dets with
  | [] => []
  | det :: rest =>
      if snd (detection_draws det) then fst (detection_draws det) ++ detections_draws rest
      else fst (detection_draws det)
  end.

(** [st'] is [st] with the buffer at [frame] drawn on by [ds] and nothing
    else touched, the [model] global apart. *)
Definition drew (frame : loc) (ds : list draw) (st st' : State) : Prop :=
  camera st' = camera st /\
  output_frame st' = output_frame st /\
  detection_enabled st' = detection_enabled st /\
  threads st' = threads st /\
  model_file st' = model_file st /\
  captures_created st' = captures_created st /\
  length (heap st') = length (heap st) /\
  heap st' !! frame = add_draws ds <$> heap st !! frame /\
  forall l : loc, l <> frame -> heap st' !! l = heap st !! l.

(** ** Notions the statements are written with *)

(** The boxes and labels [detect_objects] draws in a given world. *)
Definition detect_draws (env : CaptureEnv) (st : State) : list draw :=
  let loaded :=
    match model st with
    | Some m => Some m
    | None => snd (load_model (hub_load env) st)
    end in
  match loaded, infer env with
  | Some _, Returns detections => detections_draws detections
  | _, _ => []
  end.

(** What one pass over l.115-143 leaves behind, for a working buffer that
    is in the heap: the buffer and its fresh copy in the slot both carry the
    boxes (if any), then the status text, then the address text. *)
Definition overlays (env : CaptureEnv) (st : State) (im : image) : list draw :=
  (if truthy (detection_enabled st) then detect_draws env st else [])
    ++ [status_overlay (detection_enabled st);
        address_overlay (sock env) (height im)].

(** Events that neither stop the session nor toggle detection. *)
Definition keeps_flag (ev : event) : bool :=
  match ev with
  | StopCamera _ | ToggleDetection => false
  | StartCamera _ | GetStatus _ | CaptureThread _ _ => true
  end.

(** One full pass of the loop of [capture_frames] by thread [tid] with no
    other thread or route in between: loop head, [camera.read()], then
    l.115-147. *)
Definition capture_iteration (env : CaptureEnv) (tid : nat) (st : State) : State :=
  capture_frames env tid (capture_frames env tid (capture_frames env tid st)).

(** Passes run back to back, one world per pass. *)
Definition capture_loop (envs : list CaptureEnv) (tid : nat) (st : State) : State :=
  foldl (fun s env => capture_iteration env tid s) st envs.

(** The frame in the slot after each pass. *)
Fixpoint published (envs : list CaptureEnv) (tid : nat) (st : State) : list (option image) :=
  match envs with
  | [] => []
  | env :: rest =>
      let st1 := capture_iteration env tid st in
      (output_frame st1 ≫= fun p => heap st1 !! p) :: published rest tid st1
  end.

(** The camera delivers a frame and the detector raises on it. *)
Definition detector_raises (env : CaptureEnv) : bool :=
  match read env, infer env with
  | Some _, Raises _ => true
  | _, _ => false
  end.

(** The frame as delivered in world [env] with the two texts and nothing
    else on it. *)
Definition plain_frame (enabled : pyval) (env : CaptureEnv) : option image :=
  match read env with
  | Some (px, h) =>
      Some {| pixels := px; height := h;
              drawn := [status_overlay enabled; address_overlay (sock env) h] |}
  | None => None
  end.

(** Thread-local [frame] variables point into the heap and never at the
    buffer in the slot; the slot points into the heap. *)
Definition well_formed (st : State) : Prop :=
  (forall p, output_frame st = Some p -> (p < length (heap st))%nat)
  /\ (forall tid n f, threads st !! tid = Some (HasFrame n f) ->
        (f < length (heap st))%nat /\ output_frame st <> Some f).

(** No thread holds [p] as its working buffer. *)
Definition not_working (p : loc) (st : State) : Prop :=
  forall tid n, threads st !! tid <> Some (HasFrame n p).

(** What a step may do to buffers: the heap only grows, a buffer that is
    nobody's working buffer keeps its content, and a working buffer that
    appears is freshly allocated. *)
Definition respects_buffers (st st' : State) : Prop :=
  (length (heap st) <= length (heap st'))%nat
  /\ (forall l, (l < length (heap st))%nat -> not_working l st ->
        heap st' !! l = heap st !! l)
  /\ (forall tid n f, threads st' !! tid = Some (HasFrame n f) ->
        threads st !! tid = Some (HasFrame n f) \/ f = length (heap st)).

(** A session that has published one frame. *)
Definition one_frame_published : State :=
  exec [StartCamera webcam_ok; CaptureThread 0 (world_ok 1);
        CaptureThread 0 (world_ok 1); CaptureThread 0 (world_ok 1);
        CaptureThread 0 (world_ok 1)] (initial true).

(** ** Further notions: passes, chunks, boxes *)

(** Steps of thread [tid] run back to back, one world per step. *)
Definition capture_steps (envs : list CaptureEnv) (tid : nat) (st : State) : State :=
  foldl (fun s env => capture_frames env tid s) st envs.

(** The chunk one pass of [generate] hands out for an observation, if
    any: the slot holds a frame and [cv2.imencode] returned a true flag. *)
Definition chunk_of (o : State * outcome (bool * string)) : option string :=
  match output_frame (fst o), snd o with
  | Some _, Returns (true, encoded_frame) => Some (multipart_chunk encoded_frame)
  | _, _ => None
  end.

Definition count_boxes (im : image) : nat := length (List.filter is_box (drawn im)).

(** The last two drawing calls on a buffer are a status text and an
    address text. *)
Definition ends_with_overlays (im : image) : Prop :=
  exists (pre : list draw) enabled sk shape0,
    drawn im = (pre ++ [status_overlay enabled; address_overlay sk shape0])%list.

(** A thread that has not got past [check_model_file]. *)
Definition never_looped (pc : capture_pc) : bool :=
  match pc with
  | AtEntry | Finished => true
  | AtLoopHead _ | InRead _ | HasFrame _ _ => false
  end.

(** How many of its own steps a thread needs at most to leave
    [capture_frames] once [camera] is [None] and stays so. *)
Definition steps_to_exit (pc : capture_pc) : nat :=
  match pc with
  | Finished => 0
  | AtLoopHead _ => 1
  | AtEntry | HasFrame _ _ => 2
  | InRead _ => 3
  end.

(** ** The template on disk *)

(** The working directory as [create_template] sees it: what each
    relative path names.  Permissions and disk space are left out. *)
Inductive node : Type :=
| Dir
| File (content : string).

(** [create_template] (l.278-602), the page text being [index_html]:
    [os.makedirs('templates')] unless the path exists, then
    [open('templates/index.html', 'w')] and one [write].  Opening fails
    when [templates] is not a directory or the target is one; the
    exception is not caught. *)
Definition create_template (index_html : string) (fs : gmap string node)
  : gmap string node * outcome unit :=
  let fs1 :=
    match fs !! "templates" with
    | None => <["templates" := Dir]> fs
    | Some _ => fs
    end in
  match fs1 !! "templates" with
  | Some Dir =>
      match fs1 !! "templates/index.html" with
      | Some Dir => (fs1, Raises "[Errno 21] Is a directory: 'templates/index.html'")
      | _ => (<["templates/index.html" := File index_html]> fs1, Returns tt)
      end
  | _ => (fs1, Raises "[Errno 20] Not a directory: 'templates/index.html'")
  end.

(** [camera.read()] reports failure. *)
Definition read_fails (env : CaptureEnv) : bool :=
  match read env with
  | None => true
  | Some _ => false
  end.

(** An event in which nothing goes wrong in a route: the webcam opens, the
    body can be read and the thread starts; [camera.release()] returns. *)
Definition nothing_fails (ev : event) : bool :=
  match ev with
  | StartCamera env =>
      match video_capture env, request_detection (request env), thread_start env with
      | Returns true, Returns _, Returns _ => true
      | _, _, _ => false
      end
  | StopCamera (Returns _) => true
  | StopCamera (Raises _) => false
  | ToggleDetection | GetStatus _ | CaptureThread _ _ => true
  end.

(** How many of the responses report a successful start. *)
Fixpoint starts_reported (evs : list event) (rs : list (option response)) : nat :=
  match evs, rs with
  | StartCamera _ :: evs', Some r :: rs' =>
      ((if succeeded r then 1 else 0) + starts_reported evs' rs')%nat
  | _ :: evs', _ :: rs' => starts_reported evs' rs'
  | _, _ => 0%nat
  end.

(** The key is not bound in the dict. *)
Definition lacks_key (key : string) (d : list (string * pyval)) : bool :=
  forallb (fun kv => negb (String.eqb (fst kv) key)) d.

(** The row goes through [int], [cv2.rectangle] and [cv2.putText] without
    raising. *)
Definition drawable (det : Detection) : bool := snd (detection_draws det).

(** ** Inside a pass: the four stretches of l.115-143 *)

(** [annotate_and_publish] is four stretches run back to back
    ([pass_is_annotate_and_publish] below).  Between any two of them the
    thread can be held up (by the inference, by the socket of
    [get_ip_address], by the lock) while a route runs. *)

(** l.115-117: the flag is read, then [detect_objects] if it is set. *)
Definition detect_if_enabled (env : CaptureEnv) (frame : loc) (st : State) : State * loc :=
  if truthy (detection_enabled st) then detect_objects env frame st else (st, frame).

(** l.119-128: the flag is read again for the status text. *)
Definition draw_status (frame : loc) (st : State) : State :=
  draw_on frame (status_overlay (detection_enabled st)) st.

(** l.130-139: [get_ip_address()], [frame.shape[0]], the address text. *)
Definition draw_address (env : CaptureEnv) (frame : loc) (st : State) : State :=
  draw_on frame
    (address_overlay (sock env) (from_option height 0 (heap st !! frame))) st.

(** l.141-143: [output_frame = frame.copy()] under the lock. *)
Definition publish (frame : loc) (st : State) : State :=
  match heap st !! frame with
  | Some im => set_output_frame (Some (length (heap st))) (set_heap (heap st ++ [im]) st)
  | None => st
  end.

(** Where a pass stands: before l.116, l.120, l.131 or l.142. *)
Inductive pass_pc : Type := AtDetect | AtStatus | AtAddress | AtPublish.

(** One stretch; [None] when the pass is over. *)
Definition pass_step (env : CaptureEnv) (frame : loc) (pc : pass_pc) (st : State)
  : State * option pass_pc :=
  match pc with
  | AtDetect => (fst (detect_if_enabled env frame st), Some AtStatus)
  | AtStatus => (draw_status frame st, Some AtAddress)
  | AtAddress => (draw_address env frame st, Some AtPublish)
  | AtPublish => (publish frame st, None)
  end.

(** What happens while a pass is under way: the pass advances by one
    stretch, or something else runs meanwhile. *)
Inductive pass_event : Type :=
| Advance (env : CaptureEnv)
| Meanwhile (ev : event).

(** The pass on buffer [frame], from [pc], under a schedule. *)
Fixpoint run_pass (sched : list pass_event) (frame : loc) (pc : option pass_pc)
    (st : State) : State * option pass_pc :=
  match sched with
  | [] => (st, pc)
  | Meanwhile ev :: rest => run_pass rest frame pc (fst (step ev st))
  | Advance env :: rest =>
      match pc with
      | Some at_ => let '(st1, pc1) := pass_step env frame at_ st in
                    run_pass rest frame pc1 st1
      | None => run_pass rest frame None st
      end
  end.

(** The event is a route, not a step of a capture thread. *)
Definition is_route (ev : event) : bool :=
  match ev with
  | CaptureThread _ _ => false
  | StartCamera _ | StopCamera _ | ToggleDetection | GetStatus _ => true
  end.

(** While a pass is under way, nothing stops the session or toggles. *)
Definition pass_keeps_flag (pe : pass_event) : bool :=
  match pe with
  | Advance _ => true
  | Meanwhile ev => keeps_flag ev
  end.

(** The frame in the slot. *)
Definition slot (st : State) : option image := output_frame st ≫= fun p => heap st !! p.

(** ** Inside a resumption of the generator *)

(** l.154-166, the [with lock:] block: the encoded frame the generator
    leaves the block with, if it does not [continue]. *)
Definition generate_locked (imencode : outcome (bool * string)) (st : State) : option string :=
  match output_frame st with
  | None => None
  | Some _ =>
      match imencode with
      | Raises _ => None
      | Returns (flag, encoded_frame) => if negb flag then None else Some encoded_frame
      end
  end.

(** Where a generator stands: at the lock of l.154, past the block with an
    encoded frame and before the [yield] of l.169, suspended at the
    [yield], or exhausted. *)
Inductive gen_point : Type :=
| Polling
| Encoded (encoded_frame : string)
| Suspended (chunk : string)
| Ended.

(** One stretch of [generate]: the locked block against the globals of
    the moment, or the [yield], which looks at nothing. *)
Definition generate_point (imencode : outcome (bool * string)) (st : State) (g : gen_point)
  : gen_point :=
  match g with
  | Polling | Suspended _ =>
      match generate_locked imencode st with
      | Some encoded_frame => Encoded encoded_frame
      | None => Polling
      end
  | Encoded encoded_frame => Suspended (multipart_chunk encoded_frame)
  | Ended => Ended
  end.

(** A generator driven stretch by stretch; the chunks it hands out. *)
Fixpoint generate_points (obs : list (State * outcome (bool * string))) (g : gen_point)
  : gen_point * list string :=
  match obs with
  | [] => (g, [])
  | (st, enc) :: rest =>
      let g1 := generate_point enc st g in
      let '(g2, chunks) := generate_points rest g1 in
      (g2, match g, g1 with
           | Encoded _, Suspended c => c :: chunks
           | _, _ => chunks
           end)
  end.

(** The stretches behind a state of [generate]. *)
Definition point_of (g : gen_pc) : gen_point :=
  match g with
  | GenLoop => Polling
  | GenYielded chunk => Suspended chunk
  | GenReturned => Ended
  end.

(** * Properties *)

(** ** Drawing, step by step *)

Lemma add_draws_nil im : add_draws [] im = im.
Proof. destruct im; unfold add_draws; simpl; by rewrite app_nil_r. Qed.

Lemma add_draws_app ds1 ds2 im :
  add_draws ds2 (add_draws ds1 im) = add_draws (ds1 ++ ds2) im.
Proof. unfold add_draws; simpl; by rewrite app_assoc. Qed.

Lemma drew_refl frame st : drew frame [] st st.
Proof.
  repeat split; try done.
  destruct (heap st !! frame) as [im|]; simpl; by rewrite ?add_draws_nil.
Qed.

Lemma drew_trans frame ds1 ds2 st1 st2 st3 :
  drew frame ds1 st1 st2 -> drew frame ds2 st2 st3 ->
  drew frame (ds1 ++ ds2) st1 st3.
Proof.
  intros (C1 & O1 & D1 & T1 & F1 & K1 & L1 & H1 & R1)
         (C2 & O2 & D2 & T2 & F2 & K2 & L2 & H2 & R2).
  repeat split; try congruence.
  - rewrite H2, H1. destruct (heap st1 !! frame); simpl; by rewrite ?add_draws_app.
  - intros l Hl. rewrite R2, R1; done.
Qed.

Lemma draw_on_drew frame d st : drew frame [d] st (draw_on frame d st).
Proof.
  unfold draw_on; repeat split; simpl.
  - by rewrite length_alter.
  - rewrite list_lookup_alter_eq. reflexivity.
  - intros l Hl. by rewrite list_lookup_alter_ne.
Qed.

Lemma draw_detection_drew frame det st :
  drew frame (fst (detection_draws det)) st (fst (draw_detection frame st det))
  /\ (if snd (detection_draws det)
      then snd (draw_detection frame st det) = Returns tt
      else exists e, snd (draw_detection frame st det) = Raises e).
Proof.
  unfold draw_detection, detection_draws.
  destruct (xmin det) as [x1|], (ymin det) as [y1|], (xmax det) as [x2|],
    (ymax det) as [y2|]; simpl;
    try (split; [apply drew_refl | by eexists]).
  destruct (cv_point (x1, y1) && cv_point (x2, y2)); simpl;
    [|split; [apply drew_refl | by eexists]].
  destruct (cv_point (x1, y1 - 10)); simpl.
  - split; [|done]. eapply (drew_trans frame [_] [_]); apply draw_on_drew.
  - split; [apply draw_on_drew | by eexists].
Qed.

Lemma draw_detections_drew frame dets : forall st,
  drew frame (detections_draws dets) st (fst (draw_detections frame st dets)).
Proof.
  induction dets as [|det dets IH]; intros st; cbn [draw_detections detections_draws].
  - apply drew_refl.
  - destruct (draw_detection_drew frame det st) as [D R].
    destruct (draw_detection frame st det) as [st1 r]; simpl in *.
    destruct (snd (detection_draws det)).
    + subst r. eapply drew_trans; [exact D | apply IH].
    + destruct R as [e ->]. exact D.
Qed.

Lemma detect_objects_drew env frame st :
  drew frame (detect_draws env st) st (fst (detect_objects env frame st))
  /\ snd (detect_objects env frame st) = frame.
Proof.
  unfold detect_objects, detect_draws.
  destruct (model st) as [m|] eqn:Hm.
  - rewrite Hm. destruct (infer env) as [dets|e]; simpl; split; try done.
    + apply draw_detections_drew.
    + apply drew_refl.
  - destruct (hub_load env) as [u|e]; simpl.
    + destruct (infer env) as [dets|e]; simpl; split; try done.
      * pose proof (draw_detections_drew frame dets
                      (set_model (Some yolov5s) (set_model (Some yolov5s) st))) as H.
        exact H.
      * apply (drew_refl frame st).
    + split; try done. apply (drew_refl frame st).
Qed.

Lemma annotate_and_publish_spec env frame st im :
  heap st !! frame = Some im ->
  let st' := annotate_and_publish env frame st in
  camera st' = camera st /\
  detection_enabled st' = detection_enabled st /\
  threads st' = threads st /\
  model_file st' = model_file st /\
  captures_created st' = captures_created st /\
  output_frame st' = Some (length (heap st)) /\
  length (heap st') = S (length (heap st)) /\
  heap st' !! length (heap st) = Some (add_draws (overlays env st im) im) /\
  heap st' !! frame = Some (add_draws (overlays env st im) im) /\
  forall l : loc, l <> frame -> (l < length (heap st))%nat -> heap st' !! l = heap st !! l.
Proof.
  intros Him. unfold annotate_and_publish, overlays.
  set (boxes := if truthy (detection_enabled st) then detect_draws env st else []).
  assert (exists st1,
    (if truthy (detection_enabled st) then detect_objects env frame st else (st, frame))
      = (st1, frame) /\ drew frame boxes st st1) as (st1 & -> & D1).
  { subst boxes. destruct (truthy (detection_enabled st)).
    - destruct (detect_objects_drew env frame st) as [D E].
      exists (fst (detect_objects env frame st)). split; [|done].
      destruct (detect_objects env frame st); simpl in *; congruence.
    - exists st. split; [done | apply drew_refl]. }
  pose proof (draw_on_drew frame (status_overlay (detection_enabled st1)) st1) as D2.
  set (st2 := draw_on frame (status_overlay (detection_enabled st1)) st1) in *.
  pose proof (drew_trans _ _ _ _ _ _ D1 D2) as D12.
  assert (heap st2 !! frame
          = Some (add_draws (boxes ++ [status_overlay (detection_enabled st1)]) im)) as H2.
  { destruct D12 as (_ & _ & _ & _ & _ & _ & _ & H & _). by rewrite H, Him. }
  rewrite H2; simpl from_option.
  change (height (add_draws _ im)) with (height im).
  pose proof (draw_on_drew frame (address_overlay (sock env) (height im)) st2) as D3.
  set (st3 := draw_on frame (address_overlay (sock env) (height im)) st2) in *.
  pose proof (drew_trans _ _ _ _ _ _ D12 D3) as D.
  rewrite <- app_assoc in D; simpl app in D.
  assert (detection_enabled st1 = detection_enabled st) as E1 by apply D1.
  rewrite E1 in D.
  destruct D as (C & O & De & T & F & K & L & H & R).
  clearbody st3. rewrite H, Him; simpl.
  repeat split; try done.
  - by rewrite L.
  - rewrite length_app; simpl; lia.
  - rewrite <- L. by rewrite lookup_app_r, Nat.sub_diag.
  - rewrite lookup_app_l; [by rewrite H, Him | rewrite L; by eapply lookup_lt_Some].
  - intros l Hl Hlt. rewrite lookup_app_l by lia. by apply R.
Qed.

(** ** Steps of the capture thread and the globals *)

Lemma set_pc_threads tid pc st :
  (tid < length (threads st))%nat -> threads (set_pc tid pc st) !! tid = Some pc.
Proof. intros H. unfold set_pc; simpl. by rewrite list_lookup_insert_eq. Qed.

Lemma capture_frames_detection_enabled env tid st :
  detection_enabled (capture_frames env tid st) = detection_enabled st
  /\ camera (capture_frames env tid st) = camera st.
Proof.
  unfold capture_frames.
  destruct (threads st !! tid) as [[| n | n | n frame |]|]; try done.
  - destruct (negb (check_model_file st)); [done|].
    destruct (model st); [done|]. by destruct (hub_load env).
  - destruct (camera st) eqn:Hc; simpl; by rewrite ?Hc.
  - destruct (read env) as [[px h]|]; [done|].
    destruct (camera st) eqn:Hc; simpl; by rewrite ?Hc.
  - simpl. unfold annotate_and_publish.
    destruct (truthy (detection_enabled st)) eqn:Ht.
    + destruct (detect_objects_drew env frame st) as [D E].
      destruct (detect_objects env frame st) as [st1 frame1]; simpl in *.
      destruct D as (C & _ & De & _).
      match goal with |- context [match ?x with _ => _ end] => destruct x end;
        simpl; by rewrite ?C, ?De.
    + match goal with |- context [match ?x with _ => _ end] => destruct x end; done.
Qed.

Lemma exec_cons ev evs st : exec (ev :: evs) st = exec evs (fst (step ev st)).
Proof.
  unfold exec; simpl. destruct (step ev st) as [st1 r]; simpl.
  by destruct (run evs st1).
Qed.

Lemma exec_app evs1 : forall evs2 st, exec (evs1 ++ evs2) st = exec evs2 (exec evs1 st).
Proof.
  induction evs1 as [|ev evs1 IH]; intros evs2 st; [done|].
  simpl app. rewrite !exec_cons. apply IH.
Qed.

Lemma exec_keeps_flag evs : forall st h,
  camera st = Some h ->
  forallb keeps_flag evs = true ->
  detection_enabled (exec evs st) = detection_enabled st
  /\ camera (exec evs st) = Some h.
Proof.
  induction evs as [|ev evs IH]; intros st h Hc Hq; [done|].
  simpl in Hq. apply andb_prop in Hq as [Hev Hq].
  rewrite exec_cons.
  assert (detection_enabled (fst (step ev st)) = detection_enabled st
          /\ camera (fst (step ev st)) = Some h) as [E1 E2].
  { destruct ev as [env | rel | | sk | tid env]; simpl in *; try done.
    - unfold start_camera. by rewrite Hc.
    - destruct (capture_frames_detection_enabled env tid st) as [-> ->]. done. }
  destruct (IH _ h E2 Hq) as [-> ->]. by rewrite E1.
Qed.

(** ** The session controller *)

Lemma start_camera_fresh_has_shape env st :
  camera st = None -> has_status_and_success (snd (start_camera env st)) = true.
Proof.
  intros Hc. unfold start_camera. rewrite Hc.
  destruct (video_capture env) as [[|]|e]; simpl; try done.
  destruct (request_detection (request env)) as [d|e]; simpl; try done.
  by destruct (thread_start env).
Qed.

Lemma start_camera_response_by_camera env st st' :
  camera st = camera st' -> snd (start_camera env st) = snd (start_camera env st').
Proof.
  intros Hc. unfold start_camera. rewrite <- Hc.
  destruct (camera st); [done|].
  destruct (video_capture env) as [[|]|e]; simpl; try done.
  destruct (request_detection (request env)) as [d|e]; simpl; try done.
  by destruct (thread_start env).
Qed.

(** C1.  The claim: over every sequence of start and stop calls the
    [camera] global is set exactly when the session is running.  The code
    breaks it when the webcam does not open: [start_camera] answers
    "Failed to open camera" with [success] false, so the session was never
    started and no capture thread exists, yet [camera] keeps the unopened
    handle; the next start is then told the camera is already running and
    the status route reports [camera_running] true. *)
Theorem failed_open_leaves_camera_set :
  let evs := [StartCamera webcam_missing] in
  let st := exec evs (initial true) in
  snd (run evs (initial true))
    = [Some [("status", PyStr "Failed to open camera"); ("success", PyBool false)]]
  /\ session_of evs (initial true) = Stopped
  /\ camera st = Some {| handle := 0; isOpened := false |}
  /\ threads st = []
  /\ snd (start_camera webcam_ok st) = [("status", PyStr "Camera is already running")]
  /\ field "camera_running" (snd (get_status (Returns "192.168.1.20") st))
     = Some (PyBool true).
Proof. repeat split. Qed.

Lemma camera_iff_running_fails :
  ~ (forall evs file,
       camera (exec evs (initial file)) <> None
       <-> session_of evs (initial file) = Running).
Proof.
  intros H. destruct (H [StartCamera webcam_missing] true) as [H1 _].
  assert (session_of [StartCamera webcam_missing] (initial true) = Running) as E
    by (apply H1; discriminate).
  discriminate E.
Qed.

(** C2.  The claim: with [yolov5s.pt] absent, [start_camera] reports
    failure.  The code looks for the file only inside the capture thread:
    [start_camera] has already answered "Camera started successfully" when
    the thread finds the file missing and returns, leaving the camera open
    and the slot empty. *)
Theorem start_camera_succeeds_without_model_file :
  let st0 := initial false in
  let st1 := fst (start_camera webcam_ok st0) in
  let st2 := capture_frames (world_ok 7) 0 st1 in
  check_model_file st0 = false
  /\ snd (start_camera webcam_ok st0)
     = [("status", PyStr "Camera started successfully"); ("success", PyBool true)]
  /\ threads st1 = [AtEntry]
  /\ threads st2 = [Finished]
  /\ camera st2 = Some {| handle := 0; isOpened := true |}
  /\ output_frame st2 = None.
Proof. repeat split. Qed.

(** C7.  The claim: every response of [start_camera] carries [status] and
    [success].  The "already running" answer of l.201 is the one response
    of the route without a [success] field. *)
Theorem already_running_response_lacks_success :
  let st := fst (start_camera webcam_ok (initial true)) in
  snd (start_camera webcam_ok st) = [("status", PyStr "Camera is already running")]
  /\ field "success" (snd (start_camera webcam_ok st)) = None
  /\ has_status_and_success (snd (start_camera webcam_ok st)) = false.
Proof. repeat split. Qed.

(** C6.  Two stops in a row, the first of which got through
    [camera.release()]: the second answers "Camera is not running" and
    returns the state it was given, with the camera absent and the slot
    empty or as it was.  Two starts in a row, the first of which got a
    handle back from [cv2.VideoCapture(0)]: the second answers "Camera is
    already running" and returns the state it was given, so no further
    handle is created. *)
Theorem start_stop_idempotent :
  (forall (st : State) (u : unit) (release2 : outcome unit),
     let st1 := fst (stop_camera (Returns u) st) in
     stop_camera release2 st1
       = (st1, [("status", PyStr "Camera is not running"); ("success", PyBool false)])
     /\ camera st1 = None)
  /\
  (forall (st : State) (opened : bool) (req : Request) (spawn : outcome unit)
          (env2 : StartEnv),
     let env1 := {| video_capture := Returns opened; request := req;
                    thread_start := spawn |} in
     let st1 := fst (start_camera env1 st) in
     start_camera env2 st1 = (st1, [("status", PyStr "Camera is already running")])
     /\ captures_created (fst (start_camera env2 st1)) = captures_created st1
     /\ (captures_created st1 <= S (captures_created st))%nat).
Proof.
  split.
  - intros st u release2 st1. subst st1. unfold stop_camera.
    destruct (camera st) eqn:Hc; simpl; by rewrite ?Hc.
  - intros st opened req spawn env2 env1 st1.
    assert (camera st1 <> None /\ (captures_created st1 <= S (captures_created st))%nat)
      as [Hc Hn].
    { subst st1 env1. unfold start_camera.
      destruct (camera st) eqn:Hc; simpl; [rewrite Hc; split; [done | lia]|].
      destruct opened; simpl; [|split; [done | lia]].
      destruct (request_detection req); simpl; [|split; [done | lia]].
      destruct spawn; simpl; split; done || lia. }
    unfold start_camera at 1 2. destruct (camera st1); done.
Qed.

(** C10.  With the camera absent, [get_status] reports [detection_enabled]
    false whatever the stored flag is, and hands the globals back as they
    were. *)
Theorem get_status_masks_detection_when_stopped (sock : outcome string) (st : State) :
  camera st = None ->
  field "detection_enabled" (snd (get_status sock st)) = Some (PyBool false)
  /\ field "camera_running" (snd (get_status sock st)) = Some (PyBool false)
  /\ fst (get_status sock st) = st
  /\ detection_enabled (fst (get_status sock st)) = detection_enabled st.
Proof. intros Hc. unfold get_status. rewrite Hc. done. Qed.

Lemma get_status_masks_detection_when_stopped_witness :
  camera (initial true) = None
  /\ detection_enabled (initial true) = PyBool true
  /\ field "detection_enabled" (snd (get_status (Raises "unreachable") (initial true)))
     = Some (PyBool false).
Proof.
  split; [reflexivity|]. split; [reflexivity|].
  apply (get_status_masks_detection_when_stopped (Raises "unreachable") (initial true)).
  reflexivity.
Defined.

(** ** What a pass publishes *)

Lemma capture_frames_publish env tid st n frame im :
  threads st !! tid = Some (HasFrame n frame) ->
  heap st !! frame = Some im ->
  let st' := capture_frames env tid st in
  output_frame st' = Some (length (heap st))
  /\ heap st' !! length (heap st) = Some (add_draws (overlays env st im) im)
  /\ threads st' !! tid = Some (AtLoopHead (S n))
  /\ camera st' = camera st
  /\ detection_enabled st' = detection_enabled st.
Proof.
  intros Ht Him. unfold capture_frames. rewrite Ht.
  destruct (annotate_and_publish_spec env frame st im Him)
    as (C & D & T & _ & _ & O & _ & Hp & _).
  simpl. repeat split; try done.
  unfold set_pc; simpl. rewrite T.
  apply list_lookup_insert_eq. by eapply lookup_lt_Some.
Qed.

(** ** A detector that raises *)

Lemma detect_draws_raises env st msg : infer env = Raises msg -> detect_draws env st = [].
Proof.
  intros H. unfold detect_draws. rewrite H.
  by destruct (match model st with Some m => Some m | None => _ end).
Qed.

Lemma capture_iteration_detector_raises env tid st n h :
  threads st !! tid = Some (AtLoopHead n) ->
  camera st = Some h ->
  detector_raises env = true ->
  let st' := capture_iteration env tid st in
  threads st' !! tid = Some (AtLoopHead (S n))
  /\ camera st' = Some h
  /\ detection_enabled st' = detection_enabled st
  /\ (output_frame st' ≫= fun p => heap st' !! p) = plain_frame (detection_enabled st) env.
Proof.
  intros Ht Hc Hr. cbv zeta. unfold detector_raises in Hr.
  destruct (read env) as [[px ht]|] eqn:Hread; [|done].
  destruct (infer env) as [|msg] eqn:Hinfer; [done|].
  assert (tid < length (threads st))%nat as Hlt by (by eapply lookup_lt_Some).
  unfold capture_iteration.
  (* loop head *)
  set (s1 := capture_frames env tid st).
  assert (s1 = set_pc tid (InRead n) st) as E1.
  { subst s1. unfold capture_frames. by rewrite Ht, Hc. }
  (* camera.read() *)
  set (s2 := capture_frames env tid s1).
  set (im0 := {| pixels := px; height := ht; drawn := [] |}).
  assert (s2 = set_pc tid (HasFrame n (length (heap st)))
                 (set_heap (heap st ++ [im0]) s1)) as E2.
  { subst s2. unfold capture_frames at 1.
    rewrite E1 at 1. rewrite set_pc_threads by done. rewrite Hread.
    by rewrite E1. }
  assert (threads s2 !! tid = Some (HasFrame n (length (heap st)))) as Ht2.
  { rewrite E2. apply set_pc_threads. rewrite E1. simpl. by rewrite length_insert. }
  assert (heap s2 !! length (heap st) = Some im0) as Him.
  { rewrite E2. simpl. by rewrite lookup_app_r, Nat.sub_diag. }
  assert (camera s2 = Some h /\ detection_enabled s2 = detection_enabled st) as [Hc2 Hd2].
  { rewrite E2, E1. done. }
  destruct (capture_frames_publish env tid s2 n _ im0 Ht2 Him)
    as (O & Hp & T & C & D).
  repeat split; try congruence.
  rewrite O. simpl. rewrite Hp.
  unfold overlays, plain_frame. rewrite Hread, Hd2.
  rewrite (detect_draws_raises _ _ _ Hinfer).
  by destruct (truthy (detection_enabled st)).
Qed.

Lemma capture_loop_detector_raises envs : forall st tid n h,
  threads st !! tid = Some (AtLoopHead n) ->
  camera st = Some h ->
  forallb detector_raises envs = true ->
  threads (capture_loop envs tid st) !! tid = Some (AtLoopHead (n + length envs))
  /\ camera (capture_loop envs tid st) = Some h
  /\ detection_enabled (capture_loop envs tid st) = detection_enabled st
  /\ published envs tid st = map (plain_frame (detection_enabled st)) envs.
Proof.
  induction envs as [|env envs IH]; intros st tid n h Ht Hc Hall.
  - simpl. by rewrite Nat.add_0_r.
  - simpl in Hall. apply andb_prop in Hall as [Hr Hall].
    destruct (capture_iteration_detector_raises env tid st n h Ht Hc Hr)
      as (T1 & C1 & D1 & P1).
    destruct (IH _ tid (S n) h T1 C1 Hall) as (T & C & D & P).
    unfold capture_loop in *. cbn [foldl published map length].
    rewrite T, C, D, P, P1, D1.
    repeat split; try done. f_equal; f_equal; lia.
Qed.

(** C8.  A capture thread at the top of its loop, camera set, detection
    enabled, runs any number of passes in each of which the camera
    delivers a frame and the detector raises.  No pass ends the thread: it
    is back at the top of the loop with its frame counter advanced by the
    number of passes, the camera still set; and after every pass the slot
    holds that pass's frame with exactly the "Detection: ON" text and the
    address text drawn on it, hence no box. *)
Theorem detector_failure_is_contained
    (envs : list CaptureEnv) (st : State) (tid n : nat) (h : VideoCapture) :
  threads st !! tid = Some (AtLoopHead n) ->
  camera st = Some h ->
  truthy (detection_enabled st) = true ->
  forallb detector_raises envs = true ->
  threads (capture_loop envs tid st) !! tid = Some (AtLoopHead (n + length envs))
  /\ camera (capture_loop envs tid st) = Some h
  /\ Forall2
       (fun env slot =>
          exists px ht,
            read env = Some (px, ht)
            /\ slot = Some {| pixels := px; height := ht;
                              drawn := [PutText "Detection: ON" (10, 30) 80 (0, 0, 255) 2;
                                        address_overlay (sock env) ht] |})
       envs (published envs tid st)
  /\ Forall
       (fun slot => exists im, slot = Some im /\ existsb is_box (drawn im) = false)
       (published envs tid st).
Proof.
  intros Ht Hc Hon Hall.
  destruct (capture_loop_detector_raises envs st tid n h Ht Hc Hall)
    as (T & C & _ & P).
  split; [done|]. split; [done|]. rewrite P.
  assert (forall env, detector_raises env = true ->
            exists px ht,
              read env = Some (px, ht)
              /\ plain_frame (detection_enabled st) env
                 = Some {| pixels := px; height := ht;
                           drawn := [PutText "Detection: ON" (10, 30) 80 (0, 0, 255) 2;
                                     address_overlay (sock env) ht] |}) as Hplain.
  { intros env Hr. unfold detector_raises in Hr. unfold plain_frame, status_overlay.
    destruct (read env) as [[px ht]|]; [|done].
    exists px, ht. by rewrite Hon. }
  clear T C P. split.
  - induction envs as [|env envs IH]; simpl; constructor.
    + simpl in Hall. apply andb_prop in Hall as [Hr _]. by apply Hplain.
    + simpl in Hall. apply andb_prop in Hall as [_ Hall]. by apply IH.
  - induction envs as [|env envs IH]; simpl; constructor.
    + simpl in Hall. apply andb_prop in Hall as [Hr _].
      destruct (Hplain env Hr) as (px & ht & _ & ->). by eexists.
    + simpl in Hall. apply andb_prop in Hall as [_ Hall]. by apply IH.
Qed.

Lemma detector_failure_is_contained_witness :
  let st := exec [StartCamera webcam_ok; CaptureThread 0 (world_ok 1)] (initial true) in
  let envs := [world_detector_down 5; world_detector_down 6] in
  threads (capture_loop envs 0 st) !! 0%nat = Some (AtLoopHead 2)
  /\ camera (capture_loop envs 0 st) = Some {| handle := 0; isOpened := true |}
  /\ Forall
       (fun slot => exists im, slot = Some im /\ existsb is_box (drawn im) = false)
       (published envs 0 st).
Proof.
  intros st envs.
  destruct (detector_failure_is_contained envs st 0 0
              {| handle := 0; isOpened := true |} eq_refl eq_refl eq_refl eq_refl)
    as (T & C & _ & B).
  split; [exact T|]. split; [exact C | exact B].
Defined.

(** ** Buffers: who may write where *)

Lemma set_pc_working tid pc st t n f :
  threads (set_pc tid pc st) !! t = Some (HasFrame n f) ->
  (t = tid /\ pc = HasFrame n f) \/ (t <> tid /\ threads st !! t = Some (HasFrame n f)).
Proof.
  unfold set_pc; simpl. intros H.
  apply list_lookup_insert_Some in H as [(-> & <- & _) | [Hne H]]; [left | right]; done.
Qed.

(** Moving thread [tid] to a program counter that holds no buffer. *)
Lemma set_pc_idle tid pc st :
  (forall n f, pc <> HasFrame n f) ->
  well_formed st ->
  well_formed (set_pc tid pc st) /\ respects_buffers st (set_pc tid pc st).
Proof.
  intros Hpc [Wo Wt].
  assert (forall t n f, threads (set_pc tid pc st) !! t = Some (HasFrame n f) ->
            threads st !! t = Some (HasFrame n f)) as Hold.
  { intros t n f H. apply set_pc_working in H as [[_ E] | [_ H]]; [|done].
    by destruct (Hpc n f). }
  split; [split | split; [|split]].
  - exact Wo.
  - intros t n f H. apply Hold in H. by apply Wt in H.
  - simpl. lia.
  - intros l _ _. reflexivity.
  - intros t n f H. left. by apply Hold.
Qed.

Lemma respects_buffers_refl st : respects_buffers st st.
Proof.
  split; [lia | split]; [intros l _ _; reflexivity | intros t n f H; by left].
Qed.

Lemma capture_frames_buffers env tid st :
  well_formed st ->
  well_formed (capture_frames env tid st)
  /\ respects_buffers st (capture_frames env tid st).
Proof.
  intros W. pose proof W as [Wo Wt].
  pose proof (respects_buffers_refl st) as Hsame.
  unfold capture_frames.
  destruct (threads st !! tid) as [[| n | n | n frame |]|] eqn:Ht; try done.
  - (* entry: the model file, then the model *)
    destruct (negb (check_model_file st)); [by apply set_pc_idle|].
    destruct (model st); [by apply set_pc_idle|].
    destruct (hub_load env); simpl; [|by apply set_pc_idle].
    apply (set_pc_idle tid (AtLoopHead 0) (set_model (Some yolov5s) st)); done.
  - (* loop head *)
    destruct (camera st); by apply set_pc_idle.
  - (* camera.read() *)
    destruct (read env) as [[px h]|]; [|destruct (camera st); by apply set_pc_idle].
    split; [split | split; [|split]].
    + intros p Hp. simpl in *. rewrite length_app; simpl. apply Wo in Hp. lia.
    + intros t m f H. simpl heap. simpl output_frame. rewrite length_app; simpl.
      apply set_pc_working in H as [[_ E] | [_ H]].
      * injection E as _ <-. split; [lia|]. intros Hp. apply Wo in Hp. lia.
      * simpl in H. apply Wt in H as [H1 H2]. split; [lia | done].
    + simpl. rewrite length_app; simpl; lia.
    + intros l Hl _. simpl. by rewrite lookup_app_l.
    + intros t m f H. apply set_pc_working in H as [[_ E] | [_ H]].
      * injection E as _ <-. by right.
      * by left.
  - (* annotate and publish *)
    destruct (Wt _ _ _ Ht) as [Hf Hnot].
    destruct (lookup_lt_is_Some_2 (heap st) frame Hf) as [im Him].
    destruct (annotate_and_publish_spec env frame st im Him)
      as (_ & _ & T & _ & _ & O & L & _ & _ & R).
    set (st1 := annotate_and_publish env frame st) in *.
    assert (forall t m f,
              threads (set_pc tid (AtLoopHead (S n)) st1) !! t = Some (HasFrame m f) ->
              threads st !! t = Some (HasFrame m f)) as Hold.
    { intros t m f H. apply set_pc_working in H as [[_ E] | [_ H]]; [done|].
      by rewrite T in H. }
    split; [split | split; [|split]].
    + intros p Hp. simpl in *. rewrite O in Hp. injection Hp as <-. lia.
    + intros t m f H. apply Hold in H. apply Wt in H as [H1 H2].
      simpl. split; [lia|]. rewrite O. intros E. injection E as E. lia.
    + simpl. lia.
    + intros l Hl Hw. simpl. apply R; [|done]. intros ->. by apply (Hw tid n).
    + intros t m f H. left. by apply Hold.
Qed.

Lemma step_buffers ev st :
  well_formed st ->
  well_formed (fst (step ev st)) /\ respects_buffers st (fst (step ev st)).
Proof.
  intros W. pose proof W as [Wo Wt].
  pose proof (respects_buffers_refl st) as Hsame.
  destruct ev as [env | release | | sk | tid env]; simpl.
  - (* start_camera *)
    unfold start_camera. destruct (camera st); [done|].
    destruct (video_capture env) as [[|]|e]; simpl; try done.
    destruct (request_detection (request env)) as [d|e]; simpl; try done.
    destruct (thread_start env) as [u|e]; simpl; try done.
    assert (forall t n f, (threads st ++ [AtEntry])%list !! t = Some (HasFrame n f) ->
              threads st !! t = Some (HasFrame n f)) as Hold.
    { intros t n f H. apply lookup_app_Some in H as [H | [_ H]]; [done|].
      destruct (t - length (threads st))%nat; done. }
    split; [split | split; [|split]]; simpl.
    + exact Wo.
    + intros t n f H. by apply Hold, Wt in H.
    + lia.
    + intros l _ _. reflexivity.
    + intros t n f H. left. by apply Hold.
  - (* stop_camera *)
    unfold stop_camera. destruct (camera st); [|done].
    destruct release; simpl; [|done].
    split; [split | split; [|split]]; simpl.
    + intros p Hp. discriminate Hp.
    + intros t n f H. apply Wt in H as [H _]. done.
    + lia.
    + intros l _ _. reflexivity.
    + intros t n f H. by left.
  - (* toggle_detection *)
    unfold toggle_detection. destruct (camera st); simpl; done.
  - (* get_status *)
    done.
  - by apply capture_frames_buffers.
Qed.

Lemma initial_well_formed file : well_formed (initial file).
Proof. split; intros ?; done. Qed.

Lemma exec_well_formed evs : forall st, well_formed st -> well_formed (exec evs st).
Proof.
  induction evs as [|ev evs IH]; intros st W; [done|].
  rewrite exec_cons. apply IH. by apply step_buffers.
Qed.

(** A buffer that no thread works on stays as it is, whatever happens. *)
Lemma exec_keeps_buffer evs : forall st p,
  well_formed st -> (p < length (heap st))%nat -> not_working p st ->
  heap (exec evs st) !! p = heap st !! p /\ not_working p (exec evs st).
Proof.
  induction evs as [|ev evs IH]; intros st p W Hp Hw; [done|].
  rewrite exec_cons.
  destruct (step_buffers ev st W) as [W1 (Hlen & Hkeep & Hnew)].
  assert (not_working p (fst (step ev st))) as Hw1.
  { intros t n H. apply Hnew in H as [H | ->]; [by apply (Hw t n) | lia]. }
  destruct (IH (fst (step ev st)) p W1 ltac:(lia) Hw1) as [E Hw2].
  split; [|done]. rewrite E. by apply Hkeep.
Qed.

(** C9.  In every state the application can reach: (a) when a capture
    thread publishes, the slot receives a location that was not allocated
    before, different from the thread's working buffer and holding the
    same content as the annotated working buffer; (b) a buffer that is in
    the slot is no thread's working buffer, and whatever happens
    afterwards, later capture passes included, its content stays as it was
    when it was published. *)
Theorem published_frame_is_never_mutated :
  (forall (file : bool) (evs : list event) (tid : nat) (env : CaptureEnv)
          (n : nat) (frame : loc),
     let st := exec evs (initial file) in
     threads st !! tid = Some (HasFrame n frame) ->
     let st' := capture_frames env tid st in
     exists p,
       output_frame st' = Some p
       /\ heap st !! p = None
       /\ p <> frame
       /\ is_Some (heap st' !! p)
       /\ heap st' !! p = heap st' !! frame)
  /\
  (forall (file : bool) (evs later : list event) (p : loc),
     let st := exec evs (initial file) in
     output_frame st = Some p ->
     is_Some (heap st !! p)
     /\ not_working p st
     /\ heap (exec (evs ++ later) (initial file)) !! p = heap st !! p).
Proof.
  split.
  - intros file evs tid env n frame st Ht st'.
    pose proof (exec_well_formed evs _ (initial_well_formed file)) as [_ Wt].
    fold st in Wt. destruct (Wt _ _ _ Ht) as [Hf _].
    destruct (lookup_lt_is_Some_2 (heap st) frame Hf) as [im Him].
    destruct (annotate_and_publish_spec env frame st im Him)
      as (_ & _ & _ & _ & _ & O & _ & Hp & Hw & _).
    exists (length (heap st)). subst st'. unfold capture_frames. rewrite Ht. simpl.
    split; [done|]. split; [by apply lookup_ge_None_2|]. split; [lia|].
    rewrite Hp, Hw. split; [by eexists | done].
  - intros file evs later p st Hp.
    pose proof (exec_well_formed evs _ (initial_well_formed file)) as W.
    fold st in W. pose proof W as [Wo Wt].
    pose proof (Wo p Hp) as Hlt.
    assert (not_working p st) as Hw.
    { intros t n H. apply Wt in H as [_ H]. done. }
    split; [by apply lookup_lt_is_Some_2|]. split; [done|].
    rewrite exec_app. fold st. by apply exec_keeps_buffer.
Qed.

Lemma published_frame_is_never_mutated_witness :
  let first_pass := [StartCamera webcam_ok; CaptureThread 0 (world_ok 1);
                     CaptureThread 0 (world_ok 1); CaptureThread 0 (world_ok 1)] in
  let second_pass := [CaptureThread 0 (world_ok 2); CaptureThread 0 (world_ok 2);
                      CaptureThread 0 (world_ok 2)] in
  (exists p,
     output_frame (capture_frames (world_ok 1) 0 (exec first_pass (initial true))) = Some p
     /\ p <> 0%nat)
  /\ heap (exec ((first_pass ++ [CaptureThread 0 (world_ok 1)]) ++ second_pass)
             (initial true)) !! 1%nat
     = heap (exec (first_pass ++ [CaptureThread 0 (world_ok 1)]) (initial true)) !! 1%nat.
Proof.
  intros first_pass second_pass.
  destruct published_frame_is_never_mutated as [Hfresh Hstable].
  split.
  - destruct (Hfresh true first_pass 0%nat (world_ok 1) 0%nat 0%nat eq_refl)
      as (p & O & _ & Hne & _).
    exists p. split; [exact O | exact Hne].
  - destruct (Hstable true (first_pass ++ [CaptureThread 0 (world_ok 1)])%list
                second_pass 1%nat eq_refl) as (_ & _ & E).
    exact E.
Defined.

(** ** Stopping *)

Lemma stop_camera_clears_slot release st :
  succeeded (snd (stop_camera release st)) = true ->
  output_frame (fst (stop_camera release st)) = None
  /\ camera (fst (stop_camera release st)) = None.
Proof.
  unfold stop_camera. destruct (camera st); [|done]. by destruct release.
Qed.

(** C4.  The claim: after a successful [stop_camera] the slot reads empty,
    no captured frame remains observable.  [stop_camera] does empty the
    slot ([stop_camera_clears_slot]), but a capture thread that had its
    frame from [camera.read()] before the stop goes on through l.115-143
    and stores it into the slot after the stop; the thread then leaves the
    loop without clearing, so the frame stays and the stream generator
    serves it. *)
Theorem frame_published_after_stop :
  let before := [StartCamera webcam_ok; CaptureThread 0 (world_ok 1);
                 CaptureThread 0 (world_ok 1); CaptureThread 0 (world_ok 1)] in
  let st0 := exec before (initial true) in
  let st1 := fst (stop_camera (Returns tt) st0) in
  let st2 := capture_frames (world_ok 1) 0 st1 in
  let st3 := capture_frames (world_ok 1) 0 st2 in
  threads st0 = [HasFrame 0 0]
  /\ snd (stop_camera (Returns tt) st0)
     = [("status", PyStr "Camera stopped successfully"); ("success", PyBool true)]
  /\ output_frame st1 = None
  /\ camera st2 = None
  /\ output_frame st2 = Some 1%nat
  /\ threads st3 = [Finished]
  /\ output_frame st3 = Some 1%nat
  /\ pixels <$> heap st3 !! 1%nat = Some 1%N
  /\ generate jpeg_ok st3 GenLoop = GenYielded (multipart_chunk "JFIF").
Proof. repeat split. Qed.

(** ** The generator never returns *)

Lemma generate_not_returned enc st g : g <> GenReturned -> generate enc st g <> GenReturned.
Proof.
  intros Hg. unfold generate. destruct g; [| |done];
    (destruct (output_frame st); [|done]; destruct enc as [[[|] e]|]; done).
Qed.

Lemma generate_empty_slot enc st g :
  g <> GenReturned -> output_frame st = None -> generate enc st g = GenLoop.
Proof. intros Hg Ho. unfold generate. destruct g; [| |done]; by rewrite Ho. Qed.

Lemma generate_run_empty_slot obs : forall g,
  g <> GenReturned ->
  Forall (fun o => output_frame (fst o) = None) obs ->
  fst (generate_run obs g) <> GenReturned /\ snd (generate_run obs g) = [].
Proof.
  induction obs as [|[st enc] obs IH]; intros g Hg Hall; [done|].
  apply Forall_cons in Hall as [Ho Hall]. simpl in Ho.
  cbn [generate_run]. rewrite (generate_empty_slot enc st g Hg Ho).
  destruct (IH GenLoop ltac:(done) Hall) as [H1 H2].
  destruct (generate_run obs GenLoop) as [g2 chunks]. simpl in *. done.
Qed.

(** C3 as claimed, refuted: stop a session that has published a frame; a
    generator that then polls the slot has not returned after any number
    of passes. *)
Lemma generate_never_returns_after_stop :
  let st := fst (stop_camera (Returns tt) one_frame_published) in
  succeeded (snd (stop_camera (Returns tt) one_frame_published)) = true
  /\ ~ (exists bound : nat,
          fst (generate_run (replicate bound (st, jpeg_ok)) GenLoop) = GenReturned).
Proof.
  intros st. split; [reflexivity|]. intros [bound H].
  assert (Forall (fun o : State * outcome (bool * string) => output_frame (fst o) = None)
            (replicate bound (st, jpeg_ok))) as Hall.
  { apply Forall_replicate. reflexivity. }
  by destruct (generate_run_empty_slot _ GenLoop ltac:(done) Hall) as [Hg _].
Qed.


(** * Further properties of the routes *)

(** X1.  [start_camera] reports success exactly when it has started one
    capture thread: on success the thread list has one new entry at its
    end, the camera handle is an opened one and the flag is what the
    request asked for; on every other path no thread is added.  The flag
    is assigned before the thread is started (l.213-214), so it changes
    whenever the webcam opened and the body could be read, also when
    starting the thread then fails.  No path touches the slot, the heap or
    the model. *)
Theorem start_camera_success_means_thread (env : StartEnv) (st : State) :
  let st' := fst (start_camera env st) in
  let ok := succeeded (snd (start_camera env st)) in
  threads st' = (if ok then (threads st ++ [AtEntry])%list else threads st)
  /\ (if ok then
        request_detection (request env) = Returns (detection_enabled st')
        /\ isOpened <$> camera st' = Some true
      else True)
  /\ detection_enabled st'
     = match camera st, video_capture env, request_detection (request env) with
       | None, Returns true, Returns d => d
       | _, _, _ => detection_enabled st
       end
  /\ output_frame st' = output_frame st
  /\ heap st' = heap st
  /\ model st' = model st.
Proof.
  unfold start_camera. destruct (camera st); [done|].
  destruct (video_capture env) as [[|]|e]; simpl; try done.
  destruct (request_detection (request env)) as [d|e]; simpl; try done.
  by destruct (thread_start env).
Qed.

(** X2.  A JSON body that cannot be parsed, or that is not an object, makes
    [start_camera] answer with an error and [success] false once the
    webcam is open; the handle it opened stays in [camera], no thread is
    started and the flag keeps its value. *)
Theorem start_camera_bad_body_keeps_handle
    (env : StartEnv) (st : State) (msg : string) :
  camera st = None ->
  video_capture env = Returns true ->
  request_detection (request env) = Raises msg ->
  start_camera env st
  = (set_captures_created (S (captures_created st))
       (set_camera (Some {| handle := captures_created st; isOpened := true |}) st),
     [("status", PyStr ("Error: " +:+ msg)); ("success", PyBool false)])
  /\ threads (fst (start_camera env st)) = threads st
  /\ snd (start_camera env (fst (start_camera env st)))
     = [("status", PyStr "Camera is already running")].
Proof.
  intros Hc Hv Hr. unfold start_camera at 1 2 4. rewrite Hc, Hv, Hr. simpl.
  split; [done|]. split; [done|]. unfold start_camera. done.
Qed.

Lemma start_camera_bad_body_keeps_handle_witness :
  let env := {| video_capture := Returns true;
                request := {| is_json := true; json := Returns (PyList [PyBool false]) |};
                thread_start := Returns tt |} in
  snd (start_camera env (initial true))
  = [("status", PyStr "Error: 'list' object has no attribute 'get'");
     ("success", PyBool false)]
  /\ threads (fst (start_camera env (initial true))) = [].
Proof.
  intros env.
  destruct (start_camera_bad_body_keeps_handle env (initial true)
              "'list' object has no attribute 'get'" eq_refl eq_refl eq_refl)
    as (E & T & _).
  split; [by rewrite E | exact T].
Defined.

(** X3.  [stop_camera] reports success exactly when the camera was set and
    [camera.release()] returned.  On success the camera and the slot are
    both empty; on every other path the state comes back as it was.
    Threads, heap, flag, model and the handle count are never touched. *)
Theorem stop_camera_all_or_nothing (release : outcome unit) (st : State) :
  let st' := fst (stop_camera release st) in
  let ok := succeeded (snd (stop_camera release st)) in
  (ok = true <-> camera st <> None /\ exists u, release = Returns u)
  /\ (if ok then camera st' = None /\ output_frame st' = None else st' = st)
  /\ threads st' = threads st
  /\ heap st' = heap st
  /\ detection_enabled st' = detection_enabled st
  /\ model st' = model st
  /\ captures_created st' = captures_created st.
Proof.
  unfold stop_camera. destruct (camera st) as [h|] eqn:Hc; simpl.
  - destruct release as [u|e]; simpl.
    + repeat split; try done. by exists u.
    + repeat split; try done. intros [_ [u Hu]]. done.
  - repeat split; try done. intros [H _]. done.
Qed.

(** X4.  Toggling twice gives back the truth value of the flag, and a
    third toggle lands where the first did: after one toggle the flag is a
    Python bool, whatever the request had stored in it. *)
Theorem toggle_detection_twice (st : State) :
  let once := fst (toggle_detection st) in
  let twice := fst (toggle_detection once) in
  truthy (detection_enabled twice) = truthy (detection_enabled st)
  /\ fst (toggle_detection twice) = once
  /\ match camera st with
     | Some _ =>
         detection_enabled once = PyBool (negb (truthy (detection_enabled st)))
         /\ detection_enabled twice = PyBool (truthy (detection_enabled st))
     | None => twice = st
     end.
Proof.
  unfold toggle_detection. destruct (camera st) as [h|] eqn:Hc; simpl.
  - rewrite Hc; simpl. rewrite Hc; simpl. rewrite !negb_involutive.
    repeat split; try done.
  - rewrite Hc; simpl. by rewrite Hc.
Qed.

(** X5.  Start, status, toggle, status, stop, status.  Starting a stopped
    session with a flag [d] makes the status route report the camera
    running and [d]; after a toggle it reports the negation of [d]'s truth
    value; after a stop it reports the camera not running and detection
    false, while the stored flag is still the toggled one. *)
Theorem status_follows_the_session
    (env : StartEnv) (st : State) (d : pyval) (u u' : unit) (sk : outcome string) :
  camera st = None ->
  video_capture env = Returns true ->
  request_detection (request env) = Returns d ->
  thread_start env = Returns u ->
  let s1 := fst (start_camera env st) in
  let s2 := fst (toggle_detection s1) in
  let s3 := fst (stop_camera (Returns u') s2) in
  (field "camera_running" (snd (get_status sk s1)) = Some (PyBool true)
   /\ field "detection_enabled" (snd (get_status sk s1)) = Some d)
  /\ field "detection_enabled" (snd (toggle_detection s1))
     = Some (PyBool (negb (truthy d)))
  /\ field "detection_enabled" (snd (get_status sk s2))
     = Some (PyBool (negb (truthy d)))
  /\ (field "camera_running" (snd (get_status sk s3)) = Some (PyBool false)
      /\ field "detection_enabled" (snd (get_status sk s3)) = Some (PyBool false)
      /\ detection_enabled s3 = PyBool (negb (truthy d))).
Proof.
  intros Hc Hv Hr Ht. unfold start_camera. rewrite Hc, Hv, Hr, Ht. simpl. done.
Qed.

Lemma status_follows_the_session_witness :
  let env := {| video_capture := Returns true;
                request := {| is_json := true;
                              json := Returns (PyDict [("detection", PyBool false)]) |};
                thread_start := Returns tt |} in
  let s1 := fst (start_camera env (initial true)) in
  field "detection_enabled" (snd (get_status (Raises "offline") s1)) = Some (PyBool false)
  /\ field "detection_enabled" (snd (toggle_detection s1)) = Some (PyBool true).
Proof.
  intros env s1.
  destruct (status_follows_the_session env (initial true) (PyBool false) tt tt
              (Raises "offline") eq_refl eq_refl eq_refl eq_refl)
    as ((_ & H1) & H2 & _).
  split; [exact H1 | exact H2].
Defined.

(** * Further properties of the model global *)

Lemma draw_detections_model frame dets : forall st,
  model (fst (draw_detections frame st dets)) = model st.
Proof.
  induction dets as [|det dets IH]; intros st; [done|]. cbn [draw_detections].
  assert (model (fst (draw_detection frame st det)) = model st) as E.
  { unfold draw_detection.
    destruct (py_int (xmin det)), (py_int (ymin det)), (py_int (xmax det)),
      (py_int (ymax det)); try done.
    match goal with |- context [if ?b then _ else _] => destruct b end; [|done].
    match goal with |- context [if ?b then _ else _] => destruct b end; done. }
  destruct (draw_detection frame st det) as [st1 [u|e]]; simpl in *.
  - by rewrite IH.
  - done.
Qed.

(** The model after [detect_objects]: the one that was there, else what
    [load_model] delivers. *)
Lemma detect_objects_model env frame st :
  model (fst (detect_objects env frame st))
  = match model st with
    | Some m => Some m
    | None => snd (load_model (hub_load env) st)
    end.
Proof.
  unfold detect_objects. destruct (model st) as [m|] eqn:Hm.
  - rewrite Hm. destruct (infer env); simpl; [|done].
    by rewrite draw_detections_model.
  - destruct (hub_load env); simpl; [|done].
    destruct (infer env); simpl; [|done]. by rewrite draw_detections_model.
Qed.

Lemma annotate_and_publish_model env frame st :
  model (annotate_and_publish env frame st)
  = if truthy (detection_enabled st) then model (fst (detect_objects env frame st))
    else model st.
Proof.
  unfold annotate_and_publish.
  destruct (truthy (detection_enabled st)).
  - destruct (detect_objects env frame st) as [st1 frame1]; simpl.
    match goal with |- context [match ?x with _ => _ end] => destruct x end; done.
  - match goal with |- context [match ?x with _ => _ end] => destruct x end; done.
Qed.

(** X7.  Without [yolov5s.pt] on disk nothing is ever streamed: whatever
    routes are called and however the threads are scheduled, every capture
    thread returns at [check_model_file] before its loop, no buffer is
    allocated, the model is never loaded and the slot stays empty, so
    [generate] hands out no chunk. *)
Theorem no_model_file_no_frames (evs : list event) :
  let st := exec evs (initial false) in
  output_frame st = None
  /\ heap st = []
  /\ model st = None
  /\ forallb never_looped (threads st) = true
  /\ forall enc g, g <> GenReturned -> generate enc st g = GenLoop.
Proof.
  assert (forall st,
            model_file st = false /\ output_frame st = None /\ heap st = []
            /\ model st = None /\ forallb never_looped (threads st) = true ->
            let st' := exec evs st in
            model_file st' = false /\ output_frame st' = None /\ heap st' = []
            /\ model st' = None /\ forallb never_looped (threads st') = true) as Hinv.
  { induction evs as [|ev evs IH]; intros st H; [done|].
    rewrite exec_cons. apply IH. clear IH.
    destruct H as (F & O & Hh & M & T).
    destruct ev as [env | release | | sk | tid env]; simpl.
    - unfold start_camera. destruct (camera st); [done|].
      destruct (video_capture env) as [[|]|e]; simpl; try done.
      destruct (request_detection (request env)) as [d|e]; simpl; try done.
      destruct (thread_start env); simpl; try done.
      repeat split; try done. rewrite forallb_app, T. done.
    - unfold stop_camera. destruct (camera st); [|done]. by destruct release.
    - unfold toggle_detection. by destruct (camera st).
    - done.
    - unfold capture_frames.
      destruct (threads st !! tid) as [pc|] eqn:Ht; [|done].
      assert (never_looped pc = true) as Hpc.
      { rewrite forallb_forall in T. apply T.
        apply list_elem_of_In. by eapply list_elem_of_lookup_2. }
      destruct pc; try done.
      unfold check_model_file. rewrite F. simpl.
      repeat split; try done.
      rewrite forallb_forall. intros pc Hin.
      apply list_elem_of_In, list_elem_of_lookup in Hin as [i Hi].
      apply list_lookup_insert_Some in Hi as [(_ & <- & _) | [_ Hi]]; [done|].
      rewrite forallb_forall in T. apply T.
      apply list_elem_of_In. by eapply list_elem_of_lookup_2. }
  intros st.
  destruct (Hinv (initial false)) as (_ & O & Hh & M & T); [done|].
  repeat split; try done.
  intros enc g Hg. by apply generate_empty_slot.
Qed.

Lemma no_model_file_no_frames_witness :
  generate jpeg_ok
    (exec [StartCamera webcam_ok; CaptureThread 0 (world_ok 1);
           CaptureThread 0 (world_ok 1)] (initial false))
    (GenYielded "stale") = GenLoop.
Proof.
  destruct (no_model_file_no_frames
              [StartCamera webcam_ok; CaptureThread 0 (world_ok 1);
               CaptureThread 0 (world_ok 1)]) as (_ & _ & _ & _ & H).
  apply H. discriminate.
Defined.

(** * Further properties of the capture thread *)

(** Lines 115-143 leave the camera, the flag and the thread list alone,
    whether or not the buffer is in the heap. *)
Lemma annotate_and_publish_globals env frame st :
  camera (annotate_and_publish env frame st) = camera st
  /\ detection_enabled (annotate_and_publish env frame st) = detection_enabled st
  /\ threads (annotate_and_publish env frame st) = threads st.
Proof.
  unfold annotate_and_publish.
  destruct (truthy (detection_enabled st)).
  - destruct (detect_objects_drew env frame st) as [D _].
    destruct (detect_objects env frame st) as [st1 frame1]; simpl in *.
    destruct D as (C & _ & De & T & _).
    match goal with |- context [match ?x with _ => _ end] => destruct x end;
      simpl; by rewrite ?C, ?De, ?T.
  - match goal with |- context [match ?x with _ => _ end] => destruct x end; done.
Qed.

(** X8.  With detection off the detector is out of the picture: a pass over
    l.115-143 comes out the same whatever [torch.hub.load] or the
    inference would have answered, the model global is not touched, and
    the copy that reaches the slot is the camera's buffer with the
    "Detection: OFF" text and the address text added and nothing else. *)
Theorem detection_off_skips_detector
    (env env' : CaptureEnv) (tid n : nat) (frame : loc) (im : image) (st : State) :
  threads st !! tid = Some (HasFrame n frame) ->
  heap st !! frame = Some im ->
  truthy (detection_enabled st) = false ->
  sock env' = sock env ->
  capture_frames env' tid st = capture_frames env tid st
  /\ model (capture_frames env tid st) = model st
  /\ (output_frame (capture_frames env tid st)
        ≫= fun p => heap (capture_frames env tid st) !! p)
     = Some (add_draws [PutText "Detection: OFF" (10, 30) 80 (0, 0, 255) 2;
                        address_overlay (sock env) (height im)] im).
Proof.
  intros Ht Him Hoff Hs.
  destruct (capture_frames_publish env tid st n frame im Ht Him) as (O & Hp & _).
  split; [|split].
  - unfold capture_frames. rewrite Ht. unfold annotate_and_publish.
    by rewrite Hoff, Hs.
  - unfold capture_frames. rewrite Ht. simpl.
    by rewrite annotate_and_publish_model, Hoff.
  - rewrite O. simpl. rewrite Hp. unfold overlays, status_overlay.
    by rewrite Hoff.
Qed.

Lemma detection_off_skips_detector_witness :
  let st := fst (toggle_detection
                   (exec [StartCamera webcam_ok; CaptureThread 0 (world_ok 1);
                          CaptureThread 0 (world_ok 1); CaptureThread 0 (world_ok 1)]
                      (initial true))) in
  capture_frames (world_detector_down 9) 0 st = capture_frames (world_ok 1) 0 st.
Proof.
  intros st.
  destruct (detection_off_skips_detector (world_ok 1) (world_detector_down 9)
              0 0 0 {| pixels := 1; height := 480; drawn := [] |} st
              eq_refl eq_refl eq_refl eq_refl) as [E _].
  exact E.
Defined.

(** One pass of the loop from its head, camera set, a frame delivered:
    what reaches the slot. *)
Lemma capture_iteration_publishes env tid st n h px ht :
  threads st !! tid = Some (AtLoopHead n) ->
  camera st = Some h ->
  read env = Some (px, ht) ->
  let im0 := {| pixels := px; height := ht; drawn := [] |} in
  let st' := capture_iteration env tid st in
  threads st' !! tid = Some (AtLoopHead (S n))
  /\ camera st' = Some h
  /\ detection_enabled st' = detection_enabled st
  /\ (output_frame st' ≫= fun p => heap st' !! p)
     = Some (add_draws (overlays env st im0) im0).
Proof.
  intros Ht Hc Hread. cbv zeta.
  assert (tid < length (threads st))%nat as Hlt by (by eapply lookup_lt_Some).
  unfold capture_iteration.
  set (s1 := capture_frames env tid st).
  assert (s1 = set_pc tid (InRead n) st) as E1.
  { subst s1. unfold capture_frames. by rewrite Ht, Hc. }
  set (s2 := capture_frames env tid s1).
  set (im0 := {| pixels := px; height := ht; drawn := [] |}).
  assert (s2 = set_pc tid (HasFrame n (length (heap st)))
                 (set_heap (heap st ++ [im0]) s1)) as E2.
  { subst s2. unfold capture_frames at 1.
    rewrite E1 at 1. rewrite set_pc_threads by done. rewrite Hread.
    by rewrite E1. }
  assert (threads s2 !! tid = Some (HasFrame n (length (heap st)))) as Ht2.
  { rewrite E2. apply set_pc_threads. rewrite E1. simpl. by rewrite length_insert. }
  assert (heap s2 !! length (heap st) = Some im0) as Him.
  { rewrite E2. simpl. by rewrite lookup_app_r, Nat.sub_diag. }
  assert (camera s2 = Some h /\ detection_enabled s2 = detection_enabled st
          /\ model s2 = model st) as (Hc2 & Hd2 & Hm2).
  { rewrite E2, E1. done. }
  destruct (capture_frames_publish env tid s2 n _ im0 Ht2 Him)
    as (O & Hp & T & C & D).
  repeat split; try congruence.
  rewrite O. simpl. rewrite Hp.
  unfold overlays, detect_draws. rewrite Hd2, Hm2.
  destruct (model st); [done|]. by destruct (hub_load env).
Qed.

Lemma count_boxes_row det :
  length (List.filter is_box (fst (detection_draws det)))
  = if drawable det then 1%nat else length (fst (detection_draws det)).
Proof.
  unfold drawable, detection_draws.
  destruct (xmin det), (ymin det), (xmax det), (ymax det); try done.
  match goal with |- context [if ?b then _ else _] => destruct b end; [|done].
  match goal with |- context [if ?b then _ else _] => destruct b end; done.
Qed.

Lemma count_boxes_rows good : forall rest,
  forallb drawable good = true ->
  length (List.filter is_box (detections_draws (good ++ rest)))
  = (length good + length (List.filter is_box (detections_draws rest)))%nat.
Proof.
  induction good as [|det good IH]; intros rest Hgood; [done|].
  simpl in Hgood. apply andb_prop in Hgood as [Hdet Hgood].
  cbn [app detections_draws length]. unfold drawable in Hdet. rewrite Hdet.
  rewrite List.filter_app, length_app, (IH rest Hgood), count_boxes_row.
  unfold drawable. rewrite Hdet. lia.
Qed.

Lemma count_boxes_overlays (ds : list draw) enabled sk shape0 :
  length (List.filter is_box (ds ++ [status_overlay enabled; address_overlay sk shape0]))
  = length (List.filter is_box ds).
Proof. rewrite List.filter_app, length_app. simpl. lia. Qed.

(** X9.  With the model loaded, detection on and the detector answering,
    one pass puts into the slot the camera's frame with the drawing calls
    of the rows in order, up to the first row on which [int],
    [cv2.rectangle] or [cv2.putText] raises, followed by the
    "Detection: ON" text and the address text.  If no row raises there
    are as many boxes as detections.  If a row raises, the rows after it
    are dropped: the boxes are those of the rows before it, plus its own
    rectangle when only its label could not be drawn. *)
Theorem one_box_per_detection
    (env : CaptureEnv) (tid n : nat) (h : VideoCapture) (m : Model)
    (px : N) (ht : Z) (dets : list Detection) (st : State) :
  threads st !! tid = Some (AtLoopHead n) ->
  camera st = Some h ->
  model st = Some m ->
  truthy (detection_enabled st) = true ->
  read env = Some (px, ht) ->
  infer env = Returns dets ->
  exists im,
    (output_frame (capture_iteration env tid st)
       ≫= fun p => heap (capture_iteration env tid st) !! p) = Some im
    /\ pixels im = px
    /\ drawn im
       = (detections_draws dets
            ++ [PutText "Detection: ON" (10, 30) 80 (0, 0, 255) 2;
                address_overlay (sock env) ht])%list
    /\ (forallb drawable dets = true -> count_boxes im = length dets)
    /\ (forall good bad rest,
          dets = (good ++ bad :: rest)%list ->
          forallb drawable good = true ->
          drawable bad = false ->
          count_boxes im = (length good + length (fst (detection_draws bad)))%nat).
Proof.
  intros Ht Hc Hm Hon Hread Hinfer.
  destruct (capture_iteration_publishes env tid st n h px ht Ht Hc Hread)
    as (_ & _ & _ & P).
  eexists. split; [exact P|].
  unfold overlays, detect_draws, count_boxes.
  rewrite Hon, Hm, Hinfer. simpl drawn. simpl pixels.
  split; [done|]. split; [by unfold status_overlay; rewrite Hon|].
  rewrite count_boxes_overlays. split.
  - intros Hall. rewrite <- (app_nil_r dets) at 1.
    rewrite (count_boxes_rows dets [] Hall). simpl. lia.
  - intros good bad rest -> Hgood Hbad.
    rewrite (count_boxes_rows good (bad :: rest) Hgood).
    cbn [detections_draws]. unfold drawable in Hbad. rewrite Hbad.
    rewrite count_boxes_row. unfold drawable. by rewrite Hbad.
Qed.

Lemma one_box_per_detection_witness :
  let off_screen :=
    {| xmin := Finite 10; ymin := Finite (-2147483645); xmax := Finite 90;
       ymax := Finite 70; name := "kite"; confidence := "0.50" |} in
  let crowded := {| hub_load := Returns tt; read := Some (4%N, 480);
                    infer := Returns [person; off_screen; person];
                    sock := Returns "192.168.1.20" |} in
  let st := exec [StartCamera webcam_ok; CaptureThread 0 (world_ok 1)] (initial true) in
  exists im,
    (output_frame (capture_iteration crowded 0 st)
       ≫= fun p => heap (capture_iteration crowded 0 st) !! p) = Some im
    /\ count_boxes im = 2%nat
  /\ exists im',
    (output_frame (capture_iteration (world_ok 4) 0 st)
       ≫= fun p => heap (capture_iteration (world_ok 4) 0 st) !! p) = Some im'
    /\ count_boxes im' = 1%nat.
Proof.
  intros off_screen crowded st.
  destruct (one_box_per_detection crowded 0 0 {| handle := 0; isOpened := true |}
              yolov5s 4 480 [person; off_screen; person] st
              eq_refl eq_refl eq_refl eq_refl eq_refl eq_refl)
    as (im & P & _ & _ & _ & B).
  exists im. split; [exact P|]. split.
  - exact (B [person] off_screen [person] eq_refl eq_refl eq_refl).
  - destruct (one_box_per_detection (world_ok 4) 0 0 {| handle := 0; isOpened := true |}
                yolov5s 4 480 [person] st
                eq_refl eq_refl eq_refl eq_refl eq_refl eq_refl)
      as (im' & P' & _ & _ & A & _).
    exists im'. split; [exact P' | exact (A eq_refl)].
Defined.

Lemma set_pc_set_pc tid pc pc' st : set_pc tid pc (set_pc tid pc' st) = set_pc tid pc st.
Proof. unfold set_pc, set_threads; simpl. by rewrite list_insert_insert_eq. Qed.

Lemma set_pc_same tid pc st : threads st !! tid = Some pc -> set_pc tid pc st = st.
Proof.
  intros H. unfold set_pc, set_threads. rewrite (list_insert_id _ _ _ H). by destruct st.
Qed.

Lemma failed_reads_flip envs tid n h : forall (b : bool) (st : State),
  threads st !! tid = Some (if b then AtLoopHead n else InRead n) ->
  camera st = Some h ->
  forallb read_fails envs = true ->
  capture_steps envs tid st
  = set_pc tid (if xorb b (Nat.odd (length envs)) then AtLoopHead n else InRead n) st.
Proof.
  induction envs as [|env envs IH]; intros b st Ht Hc Hall.
  - simpl. rewrite xorb_false_r. symmetry. by apply set_pc_same.
  - simpl in Hall. apply andb_prop in Hall as [Hr Hall].
    assert (tid < length (threads st))%nat as Hlt by (by eapply lookup_lt_Some).
    assert (capture_frames env tid st
            = set_pc tid (if negb b then AtLoopHead n else InRead n) st) as E.
    { unfold capture_frames. rewrite Ht. unfold read_fails in Hr.
      destruct b; simpl; [by rewrite Hc|].
      destruct (read env); [done|]. by rewrite Hc. }
    unfold capture_steps in *. cbn [foldl length]. rewrite E.
    rewrite (IH (negb b)); [| by apply set_pc_threads | done | done].
    rewrite set_pc_set_pc, Nat.odd_succ, <- Nat.negb_odd.
    by destruct b, (Nat.odd (length envs)).
Qed.

(** X10.  A camera that keeps failing to deliver keeps the thread
    spinning: while [camera] is set, any number of steps in which
    [camera.read()] reports failure only move the thread between the loop
    head and the read.  Nothing is published, no buffer is allocated, the
    frame counter does not advance and the thread does not leave the loop;
    after a whole number of rounds the state is exactly what it was. *)
Theorem failed_reads_spin
    (envs : list CaptureEnv) (tid n : nat) (h : VideoCapture) (st : State) :
  threads st !! tid = Some (AtLoopHead n) ->
  camera st = Some h ->
  forallb read_fails envs = true ->
  capture_steps envs tid st
  = (if Nat.even (length envs) then st else set_pc tid (InRead n) st)
  /\ output_frame (capture_steps envs tid st) = output_frame st
  /\ heap (capture_steps envs tid st) = heap st
  /\ threads (capture_steps envs tid st) !! tid <> Some Finished.
Proof.
  intros Ht Hc Hall.
  pose proof (failed_reads_flip envs tid n h true st Ht Hc Hall) as E.
  assert (tid < length (threads st))%nat as Hlt by (by eapply lookup_lt_Some).
  rewrite E. rewrite <- Nat.negb_odd. simpl xorb.
  destruct (Nat.odd (length envs)); simpl negb; cbv iota.
  - repeat split; try done. by rewrite set_pc_threads.
  - rewrite (set_pc_same _ _ _ Ht). repeat split; try done. by rewrite Ht.
Qed.

Lemma failed_reads_spin_witness :
  let st := exec [StartCamera webcam_ok; CaptureThread 0 (world_ok 1)] (initial true) in
  let dark := {| hub_load := Returns tt; read := None;
                 infer := Returns []; sock := Raises "offline" |} in
  capture_steps [dark; dark; dark; dark] 0 st = st.
Proof.
  intros st dark.
  destruct (failed_reads_spin [dark; dark; dark; dark] 0 0
              {| handle := 0; isOpened := true |} st eq_refl eq_refl eq_refl)
    as [E _].
  exact E.
Defined.

(** How one step of thread [tid] changes the thread list. *)
Lemma capture_frames_threads env tid st :
  exists pc',
    threads (capture_frames env tid st) = <[tid := pc']> (threads st)
    /\ (threads st !! tid = Some Finished -> pc' = Finished).
Proof.
  unfold capture_frames.
  destruct (threads st !! tid) as [pc|] eqn:Ht.
  - destruct pc as [| n | n | n frame |].
    + destruct (negb (check_model_file st)); [by eexists|].
      destruct (model st); [by eexists|]. destruct (hub_load env); by eexists.
    + destruct (camera st); by eexists.
    + destruct (read env) as [[px ht]|]; [by eexists|]. destruct (camera st); by eexists.
    + exists (AtLoopHead (S n)). split; [|done]. simpl.
      by destruct (annotate_and_publish_globals env frame st) as (_ & _ & ->).
    + exists Finished. split; [|done]. by rewrite list_insert_id.
  - exists Finished. split; [|done].
    rewrite list_insert_ge; [done|]. by apply lookup_ge_None_1.
Qed.

Lemma finished_stays_finished evs tid : forall st,
  threads st !! tid = Some Finished -> threads (exec evs st) !! tid = Some Finished.
Proof.
  induction evs as [|ev evs IH]; intros st Ht; [done|].
  rewrite exec_cons. apply IH.
  destruct ev as [env | release | | sk | tid' env]; simpl.
  - unfold start_camera. destruct (camera st); [done|].
    destruct (video_capture env) as [[|]|e]; simpl; try done.
    destruct (request_detection (request env)) as [d|e]; simpl; try done.
    destruct (thread_start env); simpl; try done.
    rewrite lookup_app_l; [done|]. by eapply lookup_lt_Some.
  - unfold stop_camera. destruct (camera st); [|done]. by destruct release.
  - unfold toggle_detection. by destruct (camera st).
  - done.
  - destruct (capture_frames_threads env tid' st) as (pc' & -> & Hfin).
    destruct (decide (tid' = tid)) as [->|Hne].
    + rewrite (Hfin Ht). rewrite list_lookup_insert_eq; [done|].
      by eapply lookup_lt_Some.
    + by rewrite list_lookup_insert_ne.
Qed.

Lemma capture_frames_winds_down env tid st pc :
  camera st = None ->
  threads st !! tid = Some pc ->
  exists pc',
    threads (capture_frames env tid st) !! tid = Some pc'
    /\ (steps_to_exit pc' <= Nat.pred (steps_to_exit pc))%nat.
Proof.
  intros Hc Ht.
  assert (tid < length (threads st))%nat as Hlt by (by eapply lookup_lt_Some).
  unfold capture_frames. rewrite Ht.
  destruct pc as [| n | n | n frame |].
  - destruct (negb (check_model_file st)).
    + exists Finished. rewrite set_pc_threads by done. simpl. split; [done | lia].
    + exists (AtLoopHead 0). split; [|simpl; lia].
      destruct (model st); [by rewrite set_pc_threads|].
      destruct (hub_load env); simpl; by rewrite list_lookup_insert_eq.
  - rewrite Hc. exists Finished. rewrite set_pc_threads by done. simpl. split; [done | lia].
  - destruct (read env) as [[px ht]|].
    + exists (HasFrame n (length (heap st))). split; [|simpl; lia].
      simpl. by rewrite list_lookup_insert_eq.
    + rewrite Hc. exists Finished. rewrite set_pc_threads by done. simpl. split; [done | lia].
  - exists (AtLoopHead (S n)). split; [|simpl; lia].
    simpl. destruct (annotate_and_publish_globals env frame st) as (_ & _ & ->).
    by rewrite list_lookup_insert_eq.
  - exists Finished. split; [done | simpl; lia].
Qed.

(** X11.  Once [camera] is [None], a capture thread is out of
    [capture_frames] after at most three steps of its own, wherever it
    stood (one from the loop head, two from the entry or with a frame in
    hand, three from inside [camera.read()]); and a thread that has left
    never runs again, whatever is called afterwards, a new start
    included. *)
Theorem capture_thread_exits_after_stop
    (envs : list CaptureEnv) (later : list event) (tid : nat) (pc : capture_pc)
    (st : State) :
  camera st = None ->
  threads st !! tid = Some pc ->
  (steps_to_exit pc <= length envs)%nat ->
  threads (capture_steps envs tid st) !! tid = Some Finished
  /\ threads (exec later (capture_steps envs tid st)) !! tid = Some Finished.
Proof.
  intros Hc Ht Hlen.
  assert (threads (capture_steps envs tid st) !! tid = Some Finished) as Hfin.
  { revert st pc Hc Ht Hlen. induction envs as [|env envs IH]; intros st pc Hc Ht Hlen.
    - simpl in *. destruct pc; simpl in Hlen; try lia. done.
    - destruct (capture_frames_winds_down env tid st pc Hc Ht) as (pc' & Ht' & Hle).
      unfold capture_steps in *. cbn [foldl].
      apply (IH _ pc'); [|done|simpl in Hlen; lia].
      by destruct (capture_frames_detection_enabled env tid st) as [_ ->]. }
  split; [done|]. by apply finished_stays_finished.
Qed.

Lemma capture_thread_exits_after_stop_witness :
  let st := fst (stop_camera (Returns tt)
                   (exec [StartCamera webcam_ok; CaptureThread 0 (world_ok 1);
                          CaptureThread 0 (world_ok 1)] (initial true))) in
  threads (exec [StartCamera webcam_ok]
             (capture_steps [world_ok 2; world_ok 2; world_ok 2] 0 st)) !! 0%nat
  = Some Finished.
Proof.
  intros st.
  destruct (capture_thread_exits_after_stop [world_ok 2; world_ok 2; world_ok 2]
              [StartCamera webcam_ok] 0 (InRead 0) st eq_refl eq_refl) as [_ H].
  - simpl. lia.
  - exact H.
Defined.

(** X12.  A stop followed by a start does not end a capture thread that is
    inside its loop: [camera] is set again before the thread looks at it,
    so the old thread stays in the loop, next to the new thread the start
    has added, and its next step does not leave [capture_frames]. *)
Theorem restart_keeps_old_thread
    (env : StartEnv) (envc : CaptureEnv) (u : unit) (tid : nat) (pc : capture_pc)
    (h : VideoCapture) (st : State) :
  threads st !! tid = Some pc ->
  never_looped pc = false ->
  camera st = Some h ->
  let s1 := fst (stop_camera (Returns u) st) in
  let s2 := fst (start_camera env s1) in
  succeeded (snd (start_camera env s1)) = true ->
  threads s2 = (threads st ++ [AtEntry])%list
  /\ threads s2 !! tid = Some pc
  /\ camera s2 = Some {| handle := captures_created st; isOpened := true |}
  /\ threads (capture_frames envc tid s2) !! tid <> Some Finished.
Proof.
  intros Ht Hloop Hc s1 s2.
  assert (tid < length (threads st))%nat as Hlt by (by eapply lookup_lt_Some).
  assert (s1 = set_output_frame None (set_camera None st)) as E1.
  { subst s1. unfold stop_camera. by rewrite Hc. }
  subst s2. rewrite E1. unfold start_camera. simpl.
  destruct (video_capture env) as [[|]|e]; simpl; try done.
  destruct (request_detection (request env)) as [d|e]; simpl; try done.
  destruct (thread_start env); simpl; try done.
  intros _.
  assert ((threads st ++ [AtEntry])%list !! tid = Some pc) as Ht2
    by (by rewrite lookup_app_l).
  split; [done|]. split; [done|]. split; [done|].
  unfold capture_frames. simpl. rewrite Ht2.
  destruct pc as [| n | n | n frame |]; try done; simpl.
  - rewrite list_lookup_insert_eq; [done | rewrite length_app; simpl; lia].
  - destruct (read envc) as [[px ht]|]; simpl;
      (rewrite list_lookup_insert_eq; [done | rewrite length_app; simpl; lia]).
  - match goal with
    | |- context [annotate_and_publish ?e ?f ?s] =>
        destruct (annotate_and_publish_globals e f s) as (_ & _ & ->)
    end.
    simpl. rewrite list_lookup_insert_eq; [done | rewrite length_app; simpl; lia].
Qed.

Lemma restart_keeps_old_thread_witness :
  let st := exec [StartCamera webcam_ok; CaptureThread 0 (world_ok 1);
                  CaptureThread 0 (world_ok 1)] (initial true) in
  let s2 := fst (start_camera webcam_ok (fst (stop_camera (Returns tt) st))) in
  threads s2 = [InRead 0; AtEntry]
  /\ threads (capture_frames (world_ok 2) 0 s2) !! 0%nat <> Some Finished.
Proof.
  intros st s2.
  destruct (restart_keeps_old_thread webcam_ok (world_ok 2) tt 0 (InRead 0)
              {| handle := 0; isOpened := true |} st eq_refl eq_refl eq_refl eq_refl)
    as (T & _ & _ & N).
  split; [exact T | exact N].
Defined.

(** * Further properties of the stream generator *)

Lemma generate_chunk_of enc st g :
  g <> GenReturned ->
  generate enc st g
  = match chunk_of (st, enc) with
    | Some chunk => GenYielded chunk
    | None => GenLoop
    end.
Proof.
  intros Hg. unfold generate, chunk_of. simpl.
  destruct g; [| |done]; (destruct (output_frame st); [|done];
    destruct enc as [[[|] e]|]; done).
Qed.

(** X13.  What a viewer receives: driven over any sequence of
    observations, [generate] hands out exactly one chunk for each pass in
    which the slot holds a frame and [cv2.imencode] succeeds with a true
    flag, in order, and nothing for the other passes (empty slot, false
    flag, exception); it never ends by itself. *)
Theorem generate_run_chunks
    (obs : list (State * outcome (bool * string))) (g : gen_pc) :
  g <> GenReturned ->
  snd (generate_run obs g) = omap chunk_of obs
  /\ fst (generate_run obs g) <> GenReturned.
Proof.
  revert g. induction obs as [|[st enc] obs IH]; intros g Hg; [done|].
  cbn [generate_run omap list_omap]. rewrite (generate_chunk_of enc st g Hg).
  destruct (chunk_of (st, enc)) as [chunk|] eqn:Hchunk.
  - destruct (IH (GenYielded chunk) ltac:(done)) as [H1 H2].
    destruct (generate_run obs (GenYielded chunk)) as [g2 chunks]; simpl in *.
    by rewrite H1.
  - destruct (IH GenLoop ltac:(done)) as [H1 H2].
    destruct (generate_run obs GenLoop) as [g2 chunks]; simpl in *. done.
Qed.

Lemma generate_run_chunks_witness :
  let streaming := one_frame_published in
  let stopped := fst (stop_camera (Returns tt) one_frame_published) in
  snd (generate_run [(streaming, jpeg_ok); (streaming, Raises "bad frame");
                     (streaming, Returns (false, "JFIF")); (stopped, jpeg_ok);
                     (streaming, jpeg_ok)] GenLoop)
  = [multipart_chunk "JFIF"; multipart_chunk "JFIF"].
Proof.
  intros streaming stopped.
  assert (GenLoop <> GenReturned) as Hg by discriminate.
  destruct (generate_run_chunks
              [(streaming, jpeg_ok); (streaming, Raises "bad frame");
               (streaming, Returns (false, "JFIF")); (stopped, jpeg_ok);
               (streaming, jpeg_ok)] GenLoop Hg) as [E _].
  rewrite E. reflexivity.
Defined.

Lemma string_length_app (a b : string) :
  String.length (a +:+ b) = (String.length a + String.length b)%nat.
Proof.
  induction a as [|c a IH]; [done|].
  change (S (String.length (a +:+ b)) = S (String.length a + String.length b)).
  by rewrite IH.
Qed.

Lemma string_app_inj_r (c a b : string) : a +:+ c = b +:+ c -> a = b.
Proof.
  revert b. induction a as [|x a IH]; intros b H.
  - destruct b as [|y b]; [done|]. exfalso.
    apply (f_equal String.length) in H.
    change (String.length c = S (String.length (b +:+ c))) in H.
    rewrite string_length_app in H. lia.
  - destruct b as [|y b].
    + exfalso. apply (f_equal String.length) in H.
      change (S (String.length (a +:+ c)) = String.length c) in H.
      rewrite string_length_app in H. lia.
    + change (String x (a +:+ c) = String y (b +:+ c)) in H.
      injection H as -> H. f_equal. by apply IH.
Qed.

(** X14.  The multipart framing of l.169-170 loses nothing: a chunk is the
    37 bytes of boundary and header, the encoded frame, and a closing
    CR LF, so it is 39 bytes longer than the frame, and two chunks are
    equal only if the encoded frames are. *)
Theorem multipart_chunk_framing (a b : string) :
  String.length (multipart_chunk a) = (39 + String.length a)%nat
  /\ (multipart_chunk a = multipart_chunk b -> a = b).
Proof.
  unfold multipart_chunk. split.
  - rewrite !string_length_app. cbn. lia.
  - intros H.
    repeat match type of H with
           | ?p +:+ _ = ?p +:+ _ => apply (inj (String.app p)) in H
           end.
    by apply string_app_inj_r in H.
Qed.

Lemma multipart_chunk_framing_witness :
  multipart_chunk "JFIF" = multipart_chunk "JFIF" /\ "JFIF" = "JFIF".
Proof.
  split; [reflexivity|].
  apply (multipart_chunk_framing "JFIF" "JFIF"). reflexivity.
Defined.

(** * Further properties of the slot *)

(** What a step can do to the slot: empty it, leave it alone, or put a
    freshly annotated frame into it. *)
Lemma step_slot ev st :
  well_formed st ->
  let st' := fst (step ev st) in
  output_frame st' = None
  \/ output_frame st' = output_frame st
  \/ exists im,
       (output_frame st' ≫= fun p => heap st' !! p) = Some im
       /\ ends_with_overlays im.
Proof.
  intros [Wo Wt]. destruct ev as [env | release | | sk | tid env]; simpl.
  - right; left. unfold start_camera. destruct (camera st); [done|].
    destruct (video_capture env) as [[|]|e]; simpl; try done.
    destruct (request_detection (request env)) as [d|e]; simpl; try done.
    by destruct (thread_start env).
  - unfold stop_camera. destruct (camera st); [|by right; left].
    destruct release; [by left | by right; left].
  - right; left. unfold toggle_detection. by destruct (camera st).
  - by right; left.
  - unfold capture_frames.
    destruct (threads st !! tid) as [[| n | n | n frame |]|] eqn:Ht;
      try (by right; left).
    + right; left. destruct (negb (check_model_file st)); [done|].
      destruct (model st); [done|]. by destruct (hub_load env).
    + right; left. by destruct (camera st).
    + right; left. destruct (read env) as [[px h]|]; [done|]. by destruct (camera st).
    + right; right. destruct (Wt _ _ _ Ht) as [Hf _].
      destruct (lookup_lt_is_Some_2 (heap st) frame Hf) as [im Him].
      destruct (annotate_and_publish_spec env frame st im Him)
        as (_ & _ & _ & _ & _ & O & _ & Hp & _).
      exists (add_draws (overlays env st im) im). simpl. rewrite O. simpl.
      split; [done|]. unfold ends_with_overlays, overlays. simpl.
      eexists _, _, _, _. by rewrite app_assoc.
Qed.

(** X15.  Whatever the application has done since it came up, a frame
    that is in the slot is an allocated buffer whose last two drawing
    calls are the status text and the address text: no viewer is ever
    handed a raw camera frame or a half-annotated one. *)
Theorem slot_frames_are_annotated (file : bool) (evs : list event) (p : loc) :
  output_frame (exec evs (initial file)) = Some p ->
  exists im,
    heap (exec evs (initial file)) !! p = Some im /\ ends_with_overlays im.
Proof.
  assert (forall st,
            well_formed st ->
            (forall q, output_frame st = Some q ->
               exists im, heap st !! q = Some im /\ ends_with_overlays im) ->
            forall q, output_frame (exec evs st) = Some q ->
              exists im, heap (exec evs st) !! q = Some im /\ ends_with_overlays im)
    as Hinv.
  { induction evs as [|ev evs IH]; intros st W Hslot; [done|].
    rewrite exec_cons.
    destruct (step_buffers ev st W) as [W1 (_ & Hkeep & _)].
    apply IH; [done|]. intros q Hq.
    destruct (step_slot ev st W) as [E | [E | (im & E & Hov)]].
    - congruence.
    - rewrite E in Hq. destruct W as [Wo Wt].
      rewrite Hkeep; [by apply Hslot | by apply Wo |].
      intros t n H. apply Wt in H as [_ H]. done.
    - rewrite Hq in E. simpl in E. by exists im. }
  apply Hinv; [apply initial_well_formed | done].
Qed.

Lemma slot_frames_are_annotated_witness :
  exists im,
    heap (exec [StartCamera webcam_ok; CaptureThread 0 (world_ok 1);
                CaptureThread 0 (world_ok 1); CaptureThread 0 (world_ok 1);
                CaptureThread 0 (world_ok 1)] (initial true)) !! 1%nat = Some im
    /\ ends_with_overlays im.
Proof.
  apply (slot_frames_are_annotated true
           [StartCamera webcam_ok; CaptureThread 0 (world_ok 1);
            CaptureThread 0 (world_ok 1); CaptureThread 0 (world_ok 1);
            CaptureThread 0 (world_ok 1)] 1%nat).
  reflexivity.
Defined.

(** * The template on disk *)

(** X16.  [create_template] goes through exactly when [templates] is
    absent or a directory and [templates/index.html] is not a directory.
    It then leaves [templates] a directory and the file holding the page
    text, whatever the file held before, touches no other path, and
    running it again changes nothing. *)
Theorem create_template_overwrites (index_html : string) (fs : gmap string node) :
  let fs' := fst (create_template index_html fs) in
  (snd (create_template index_html fs) = Returns tt
   <-> (fs !! "templates" = None \/ fs !! "templates" = Some Dir)
       /\ fs !! "templates/index.html" <> Some Dir)
  /\ (snd (create_template index_html fs) = Returns tt ->
      fs' !! "templates" = Some Dir
      /\ fs' !! "templates/index.html" = Some (File index_html)
      /\ (forall path, path <> "templates" -> path <> "templates/index.html" ->
            fs' !! path = fs !! path)
      /\ create_template index_html fs' = (fs', Returns tt)).
Proof.
  assert ("templates" <> "templates/index.html") as Hne by discriminate.
  unfold create_template.
  destruct (fs !! "templates") as [[|c]|] eqn:Ht.
  - rewrite Ht. destruct (fs !! "templates/index.html") as [[|c]|] eqn:Hi; simpl.
    + split; [split; [done | intros [_ H]; done] | done].
    + split; [split; [by intros _; split; [right|] | done]|].
      intros _. simplify_map_eq. repeat split; try done.
      * intros path H1 H2. by simplify_map_eq.
      * by rewrite insert_insert_eq.
    + split; [split; [by intros _; split; [right|] | done]|].
      intros _. simplify_map_eq. repeat split; try done.
      * intros path H1 H2. by simplify_map_eq.
      * by rewrite insert_insert_eq.
  - rewrite Ht. simpl. split; [|done].
    split; [done | intros [[H|H] _]; done].
  - simplify_map_eq.
    destruct (fs !! "templates/index.html") as [[|c]|] eqn:Hi; simpl.
    + split; [split; [done | intros [_ H]; done] | done].
    + split; [split; [by intros _; split; [left|] | done]|].
      intros _. simplify_map_eq. repeat split; try done.
      * intros path H1 H2. by simplify_map_eq.
      * by rewrite insert_insert_eq.
    + split; [split; [by intros _; split; [left|] | done]|].
      intros _. simplify_map_eq. repeat split; try done.
      * intros path H1 H2. by simplify_map_eq.
      * by rewrite insert_insert_eq.
Qed.

Lemma create_template_overwrites_witness :
  let fs : gmap string node :=
    {[ "templates" := Dir; "templates/index.html" := File "edited by hand";
       "yolov5s.pt" := File "weights" ]} in
  fst (create_template "<html>" fs) !! "templates/index.html" = Some (File "<html>")
  /\ fst (create_template "<html>" fs) !! "yolov5s.pt" = Some (File "weights").
Proof.
  intros fs.
  destruct (create_template_overwrites "<html>" fs) as [_ H].
  destruct H as (_ & Hfile & Hother & _); [reflexivity|].
  split; [exact Hfile|].
  rewrite (Hother "yolov5s.pt"); [reflexivity | discriminate | discriminate].
Defined.

(** * Further properties of whole runs *)

Lemma run_cons ev evs st :
  snd (run (ev :: evs) st) = snd (step ev st) :: snd (run evs (fst (step ev st))).
Proof.
  simpl. destruct (step ev st) as [st1 r]; simpl. by destruct (run evs st1).
Qed.

Lemma dict_get_lacks key default d :
  lacks_key key d = true -> dict_get key default d = default.
Proof.
  induction d as [|[k v] d IH]; [done|]. simpl. intros Hd.
  apply andb_prop in Hd as [Hk Hd]. apply negb_true_iff in Hk.
  rewrite Hk. by apply IH.
Qed.

Lemma dict_get_first key default pre v post :
  lacks_key key pre = true ->
  dict_get key default (pre ++ (key, v) :: post) = v.
Proof.
  induction pre as [|[k w] pre IH]; simpl.
  - intros _. by rewrite String.eqb_refl.
  - intros Hd. apply andb_prop in Hd as [Hk Hd]. apply negb_true_iff in Hk.
    rewrite Hk. by apply IH.
Qed.

(** X17.  The flag a start stores is [True] unless the request is JSON
    and its object binds "detection".  A body sent with another content
    type is never looked at; an object without the key gives the default;
    an object that binds the key, at whatever position among its other
    keys, gives the bound value, of whatever JSON type; and a JSON body
    that is not an object makes the lookup raise. *)
Theorem request_detection_default
    (r : Request) (pre post : list (string * pyval)) (v : pyval) :
  (is_json r = false -> request_detection r = Returns (PyBool true))
  /\ (is_json r = true -> json r = Returns (PyDict pre) ->
      lacks_key "detection" pre = true ->
      request_detection r = Returns (PyBool true))
  /\ (is_json r = true ->
      json r = Returns (PyDict (pre ++ ("detection", v) :: post)) ->
      lacks_key "detection" pre = true ->
      request_detection r = Returns v)
  /\ (is_json r = true -> json r = Returns v ->
      py_type_name v <> "dict" ->
      exists e, request_detection r = Raises e).
Proof.
  unfold request_detection. split; [|split; [|split]].
  - by intros ->.
  - intros -> -> Hd. f_equal. by apply dict_get_lacks.
  - intros -> -> Hd. f_equal. by apply dict_get_first.
  - intros -> -> Hv. destruct v; first [by destruct Hv | by eexists].
Qed.

Lemma request_detection_default_witness :
  request_detection {| is_json := false;
                       json := Returns (PyDict [("detection", PyBool false)]) |}
  = Returns (PyBool true)
  /\ request_detection {| is_json := true;
                          json := Returns (PyDict [("quality", PyInt 3)]) |}
     = Returns (PyBool true)
  /\ request_detection {| is_json := true;
                          json := Returns (PyDict [("quality", PyInt 3);
                                                   ("detection", PyInt 0);
                                                   ("fps", PyInt 30)]) |}
     = Returns (PyInt 0)
  /\ exists e, request_detection {| is_json := true; json := Returns (PyStr "off") |}
               = Raises e.
Proof.
  split; [|split; [|split]].
  - destruct (request_detection_default
                {| is_json := false;
                   json := Returns (PyDict [("detection", PyBool false)]) |}
                [] [] PyNone) as (H & _).
    exact (H eq_refl).
  - destruct (request_detection_default
                {| is_json := true; json := Returns (PyDict [("quality", PyInt 3)]) |}
                [("quality", PyInt 3)] [] PyNone) as (_ & H & _).
    exact (H eq_refl eq_refl eq_refl).
  - destruct (request_detection_default
                {| is_json := true;
                   json := Returns (PyDict [("quality", PyInt 3); ("detection", PyInt 0);
                                            ("fps", PyInt 30)]) |}
                [("quality", PyInt 3)] [("fps", PyInt 30)] (PyInt 0)) as (_ & _ & H & _).
    exact (H eq_refl eq_refl eq_refl).
  - destruct (request_detection_default
                {| is_json := true; json := Returns (PyStr "off") |}
                [] [] (PyStr "off")) as (_ & _ & _ & H).
    apply (H eq_refl eq_refl). discriminate.
Defined.

(** X18.  One capture thread per reported start: over any run, the number
    of capture threads ever started grows by exactly the number of
    [start_camera] responses with [success] true.  No other route and no
    step of a thread adds or removes one. *)
Theorem one_thread_per_successful_start (evs : list event) (st : State) :
  length (threads (exec evs st))
  = (length (threads st) + starts_reported evs (snd (run evs st)))%nat.
Proof.
  revert st. induction evs as [|ev evs IH]; intros st.
  - unfold exec. simpl. lia.
  - rewrite exec_cons, run_cons, IH.
    destruct ev as [env | release | | sk | tid env]; simpl.
    + unfold start_camera. destruct (camera st); [simpl; lia|].
      destruct (video_capture env) as [[|]|e]; simpl; try lia.
      destruct (request_detection (request env)) as [d|e]; simpl; try lia.
      destruct (thread_start env); simpl; try lia.
      rewrite length_app. simpl. lia.
    + unfold stop_camera. destruct (camera st); [|simpl; lia].
      destruct release; simpl; lia.
    + unfold toggle_detection. destruct (camera st); simpl; lia.
    + lia.
    + destruct (capture_frames_threads env tid st) as (pc' & -> & _).
      rewrite length_insert. lia.
Qed.

(** X19.  When nothing fails in a route (every webcam open succeeds, every
    body can be read, every thread starts, every release returns), the
    camera global and the session of the specification agree after every
    run: [camera] is set exactly when the last start or stop to report
    success was a start. *)
Theorem camera_iff_running_when_nothing_fails (evs : list event) (file : bool) :
  forallb nothing_fails evs = true ->
  camera (exec evs (initial file)) <> None
  <-> session_of evs (initial file) = Running.
Proof.
  unfold session_of.
  assert (forall st s,
            forallb nothing_fails evs = true ->
            (camera st <> None <-> s = Running) ->
            (camera (exec evs st) <> None
             <-> session_after s evs (snd (run evs st)) = Running)) as H.
  { induction evs as [|ev evs IH]; intros st s Hall Hs; [done|].
    simpl in Hall. apply andb_prop in Hall as [Hev Hall].
    rewrite exec_cons, run_cons. cbn [session_after].
    apply IH; [done|]. clear IH.
    destruct ev as [env | release | | sk | tid env]; simpl in *.
    - unfold start_camera. destruct (camera st) eqn:Hc; simpl.
      + rewrite Hc. done.
      + destruct (video_capture env) as [[|]|e]; try done.
        destruct (request_detection (request env)) as [d|e]; try done.
        destruct (thread_start env); try done.
    - destruct release; [|done]. unfold stop_camera.
      destruct (camera st) eqn:Hc; simpl; [done|]. rewrite Hc. done.
    - unfold toggle_detection. destruct (camera st) eqn:Hc; simpl; by rewrite ?Hc.
    - done.
    - by destruct (capture_frames_detection_enabled env tid st) as [_ ->]. }
  intros Hall. apply H; [done|]. done.
Qed.

Lemma camera_iff_running_when_nothing_fails_witness :
  camera (exec [StartCamera webcam_ok; StartCamera webcam_ok; StopCamera (Returns tt);
                StopCamera (Returns tt); StartCamera webcam_ok] (initial true)) <> None
  <-> session_of [StartCamera webcam_ok; StartCamera webcam_ok; StopCamera (Returns tt);
                  StopCamera (Returns tt); StartCamera webcam_ok] (initial true) = Running.
Proof.
  apply (camera_iff_running_when_nothing_fails
           [StartCamera webcam_ok; StartCamera webcam_ok; StopCamera (Returns tt);
            StopCamera (Returns tt); StartCamera webcam_ok] true).
  reflexivity.
Defined.

(** X20.  A model that cannot be loaded degrades the stream, it does not
    stop it: with detection on, no model in memory and [torch.hub.load]
    raising, a pass still publishes the camera's frame with the
    "Detection: ON" text and the address text and no box, the thread
    stays in its loop, and the model global is still [None], so the load
    is tried again on the next frame. *)
Theorem model_load_failure_passes_frames_through
    (env : CaptureEnv) (tid n : nat) (h : VideoCapture) (px : N) (ht : Z)
    (msg : string) (st : State) :
  threads st !! tid = Some (AtLoopHead n) ->
  camera st = Some h ->
  model st = None ->
  truthy (detection_enabled st) = true ->
  read env = Some (px, ht) ->
  hub_load env = Raises msg ->
  let st' := capture_iteration env tid st in
  (output_frame st' ≫= fun p => heap st' !! p)
  = Some {| pixels := px; height := ht;
            drawn := [PutText "Detection: ON" (10, 30) 80 (0, 0, 255) 2;
                      address_overlay (sock env) ht] |}
  /\ threads st' !! tid = Some (AtLoopHead (S n))
  /\ model st' = None.
Proof.
  intros Ht Hc Hm Hon Hread Hload. cbv zeta.
  destruct (capture_iteration_publishes env tid st n h px ht Ht Hc Hread)
    as (T & _ & _ & P).
  split; [|split; [done|]].
  - rewrite P. unfold overlays, detect_draws, status_overlay.
    by rewrite Hon, Hm, Hload.
  - assert (tid < length (threads st))%nat as Hlt by (by eapply lookup_lt_Some).
    unfold capture_iteration.
    assert (capture_frames env tid st = set_pc tid (InRead n) st) as E1.
    { unfold capture_frames. by rewrite Ht, Hc. }
    rewrite E1.
    assert (capture_frames env tid (set_pc tid (InRead n) st)
            = set_pc tid (HasFrame n (length (heap st)))
                (set_heap (heap st ++ [{| pixels := px; height := ht; drawn := [] |}])
                   (set_pc tid (InRead n) st))) as E2.
    { unfold capture_frames at 1. rewrite set_pc_threads by done. by rewrite Hread. }
    rewrite E2. unfold capture_frames.
    rewrite set_pc_threads by (simpl; by rewrite length_insert).
    simpl. rewrite annotate_and_publish_model. simpl. rewrite Hon.
    rewrite detect_objects_model. simpl. by rewrite Hm, Hload.
Qed.

Lemma model_load_failure_passes_frames_through_witness :
  let no_hub := {| hub_load := Raises "no network"; read := Some (8%N, 480);
                   infer := Returns [person]; sock := Returns "192.168.1.20" |} in
  let st := exec [StartCamera webcam_ok; CaptureThread 0 no_hub] (initial true) in
  model (capture_iteration no_hub 0 st) = None
  /\ threads (capture_iteration no_hub 0 st) !! 0%nat = Some (AtLoopHead 1).
Proof.
  intros no_hub st.
  destruct (model_load_failure_passes_frames_through no_hub 0 0
              {| handle := 0; isOpened := true |} 8 480 "no network" st
              eq_refl eq_refl eq_refl eq_refl eq_refl eq_refl) as (_ & T & M).
  split; [exact M | exact T].
Defined.

Lemma stop_camera_all_or_nothing_witness :
  succeeded (snd (stop_camera (Returns tt) one_frame_published)) = true
  /\ fst (stop_camera (Raises "device busy") one_frame_published) = one_frame_published.
Proof.
  split.
  - destruct (stop_camera_all_or_nothing (Returns tt) one_frame_published) as [[_ H] _].
    apply H. split; [discriminate | by exists tt].
  - destruct (stop_camera_all_or_nothing (Raises "device busy") one_frame_published)
      as (_ & H & _).
    exact H.
Defined.

(** * Inside a pass *)

(** The four stretches, run back to back, are l.115-143. *)
Lemma pass_is_annotate_and_publish env frame st :
  run_pass [Advance env; Advance env; Advance env; Advance env] frame (Some AtDetect) st
  = (annotate_and_publish env frame st, None).
Proof.
  unfold annotate_and_publish. simpl. unfold detect_if_enabled.
  destruct (truthy (detection_enabled st)).
  - destruct (detect_objects_drew env frame st) as [_ E].
    destruct (detect_objects env frame st) as [st1 frame1]; simpl in *. by subst frame1.
  - done.
Qed.

(** A step of a thread that holds a frame is one such pass. *)
Lemma capture_frames_is_a_pass env tid st n frame :
  threads st !! tid = Some (HasFrame n frame) ->
  capture_frames env tid st
  = set_pc tid (AtLoopHead (S n))
      (fst (run_pass [Advance env; Advance env; Advance env; Advance env]
              frame (Some AtDetect) st)).
Proof.
  intros Ht. rewrite pass_is_annotate_and_publish. unfold capture_frames. by rewrite Ht.
Qed.

Lemma run_pass_app sched1 : forall sched2 frame pc st,
  run_pass (sched1 ++ sched2) frame pc st
  = run_pass sched2 frame (snd (run_pass sched1 frame pc st))
      (fst (run_pass sched1 frame pc st)).
Proof.
  induction sched1 as [|[env|ev] sched1 IH]; intros sched2 frame pc st; [done| |].
  - cbn [app run_pass]. destruct pc as [at_|]; [|apply IH].
    destruct (pass_step env frame at_ st) as [st1 pc1]. apply IH.
  - cbn [app run_pass]. apply IH.
Qed.

Lemma run_pass_meanwhile evs : forall rest frame pc st,
  run_pass (map Meanwhile evs ++ rest) frame pc st = run_pass rest frame pc (exec evs st).
Proof.
  induction evs as [|ev evs IH]; intros rest frame pc st; [done|].
  cbn [map app run_pass]. rewrite IH. by rewrite exec_cons.
Qed.

(** Routes never touch a buffer. *)
Lemma routes_keep_heap evs : forall st,
  forallb is_route evs = true -> heap (exec evs st) = heap st.
Proof.
  induction evs as [|ev evs IH]; intros st Hall; [done|].
  simpl in Hall. apply andb_prop in Hall as [Hev Hall].
  rewrite exec_cons, IH by done.
  destruct ev as [env | release | | sk | tid env]; simpl; try done.
  - unfold start_camera. destruct (camera st); [done|].
    destruct (video_capture env) as [[|]|e]; simpl; try done.
    destruct (request_detection (request env)) as [d|e]; simpl; try done.
    by destruct (thread_start env).
  - unfold stop_camera. destruct (camera st); [|done]. by destruct release.
  - unfold toggle_detection. by destruct (camera st).
Qed.

(** A stretch of a pass leaves the camera and the flag alone. *)
Lemma pass_step_keeps_flag env frame pc st :
  camera (fst (pass_step env frame pc st)) = camera st
  /\ detection_enabled (fst (pass_step env frame pc st)) = detection_enabled st.
Proof.
  destruct pc; simpl; try done.
  - unfold detect_if_enabled. destruct (truthy (detection_enabled st)); [|done].
    destruct (detect_objects_drew env frame st) as [(C & _ & D & _) _]. done.
  - unfold publish. by destruct (heap st !! frame).
Qed.

Lemma run_pass_keeps_flag sched : forall frame pc st h,
  camera st = Some h ->
  forallb pass_keeps_flag sched = true ->
  detection_enabled (fst (run_pass sched frame pc st)) = detection_enabled st
  /\ camera (fst (run_pass sched frame pc st)) = Some h.
Proof.
  induction sched as [|[env|ev] sched IH]; intros frame pc st h Hc Hall; [done| |].
  - simpl in Hall. cbn [run_pass]. destruct pc as [at_|]; [|by apply IH].
    destruct (pass_step_keeps_flag env frame at_ st) as [C D].
    destruct (pass_step env frame at_ st) as [st1 pc1]; simpl in *.
    rewrite <- D. apply IH; [congruence | done].
  - simpl in Hall. apply andb_prop in Hall as [Hev Hall]. cbn [run_pass].
    destruct (exec_keeps_flag [ev] st h Hc) as [D C]; [by simpl; rewrite Hev|].
    rewrite exec_cons in D, C. unfold exec in D, C. simpl in D, C.
    rewrite <- D. by apply IH.
Qed.

(** C5 as claimed, refuted.  A session is running with detection on and
    a capture thread holds a frame.  The thread draws the boxes and the
    status text "Detection: ON" (l.116-128); [toggle_detection] is called
    and answers that detection is now off; the thread draws the address
    and publishes (l.131-143).  The first frame published after the
    toggle carries "Detection: ON".  Besides: after a start that failed to
    open the webcam the session is stopped, yet the toggle succeeds. *)
Lemma toggle_after_status_text_is_missed :
  let w := world_ok 1 in
  let st0 := exec [StartCamera webcam_ok; CaptureThread 0 w; CaptureThread 0 w;
                   CaptureThread 0 w] (initial true) in
  let drawn_on := fst (run_pass [Advance w; Advance w] 0 (Some AtDetect) st0) in
  let after :=
    run_pass [Advance w; Advance w; Meanwhile ToggleDetection; Advance w; Advance w]
      0 (Some AtDetect) st0 in
  (threads st0 !! 0%nat = Some (HasFrame 0 0)
   /\ slot drawn_on = None
   /\ snd (toggle_detection drawn_on)
      = [("status", PyStr "Detection toggled successfully");
         ("detection_enabled", PyBool false);
         ("success", PyBool true)]
   /\ snd after = None
   /\ detection_enabled (fst after) = PyBool false
   /\ drawn <$> slot (fst after)
      = Some [Rectangle (40, 60) (200, 400) (0, 255, 0) 2;
              PutText "person 0.91" (40, 50) 50 (0, 255, 0) 2;
              PutText "Detection: ON" (10, 30) 80 (0, 0, 255) 2;
              PutText "Access: http://192.168.1.20:5000" (10, 470) 60 (255, 255, 255) 1])
  /\ (session_of [StartCamera webcam_missing] (initial true) = Stopped
      /\ succeeded (snd (toggle_detection (exec [StartCamera webcam_missing] (initial true))))
         = true).
Proof. repeat split. Qed.

(** C5, amended.  With the [camera] global absent, [toggle_detection]
    answers "Camera is not running" with [success] false and changes
    nothing.  With it set, it stores the negation of the flag's truth
    value and returns it; from then on, until the next stop or toggle,
    every pass that draws its status text (l.119-128) publishes a frame
    that carries the text of the new value, "Detection: ON" or
    "Detection: OFF", whatever routes are called between the drawing of
    the text and the publish. *)
Theorem toggle_detection_next_status_text :
  (forall st : State,
     camera st = None ->
     toggle_detection st
       = (st, [("status", PyStr "Camera is not running"); ("success", PyBool false)]))
  /\
  (forall (st : State) (h : VideoCapture) (before : list pass_event)
          (frame0 : loc) (pc0 : option pass_pc)
          (frame : loc) (im : image) (env1 env2 env3 : CaptureEnv)
          (routes1 routes2 : list event),
     camera st = Some h ->
     let flipped := negb (truthy (detection_enabled st)) in
     let st1 := fst (toggle_detection st) in
     detection_enabled st1 = PyBool flipped
     /\ snd (toggle_detection st)
        = [("status", PyStr "Detection toggled successfully");
           ("detection_enabled", PyBool flipped);
           ("success", PyBool true)]
     /\ (forallb pass_keeps_flag before = true ->
         let st2 := fst (run_pass before frame0 pc0 st1) in
         heap st2 !! frame = Some im ->
         forallb is_route routes1 = true ->
         forallb is_route routes2 = true ->
         let done :=
           run_pass (Advance env1 :: map Meanwhile routes1
                       ++ Advance env2 :: map Meanwhile routes2 ++ [Advance env3])
             frame (Some AtStatus) st2 in
         snd done = None
         /\ slot (fst done)
            = Some (add_draws
                      [PutText (if flipped then "Detection: ON" else "Detection: OFF")
                         (10, 30) 80 (0, 0, 255) 2;
                       address_overlay (sock env2) (height im)] im))).
Proof.
  split.
  - intros st Hc. unfold toggle_detection. by rewrite Hc.
  - intros st h before frame0 pc0 frame im env1 env2 env3 routes1 routes2 Hc flipped st1.
    assert (detection_enabled st1 = PyBool flipped /\ camera st1 = Some h) as [Hd Hc1].
    { subst st1. unfold toggle_detection. by rewrite Hc. }
    split; [done|]. split.
    { unfold toggle_detection. by rewrite Hc. }
    intros Hq st2 Him Hr1 Hr2.
    destruct (run_pass_keeps_flag before frame0 pc0 st1 h Hc1 Hq) as [Hd2 _].
    fold st2 in Hd2. cbv zeta.
    (* the status text *)
    cbn [run_pass pass_step]. rewrite run_pass_meanwhile.
    set (st3 := draw_status frame st2).
    assert (heap st3 !! frame
            = Some (add_draw (status_overlay (PyBool flipped)) im)) as H3.
    { subst st3. unfold draw_status, draw_on. simpl.
      by rewrite list_lookup_alter_eq, Him, Hd2, Hd. }
    (* the address text *)
    cbn [run_pass pass_step]. rewrite run_pass_meanwhile.
    set (st4 := draw_address env2 frame (exec routes1 st3)).
    assert (heap st4 !! frame
            = Some (add_draws [status_overlay (PyBool flipped);
                               address_overlay (sock env2) (height im)] im)) as H4.
    { subst st4. unfold draw_address, draw_on. simpl.
      rewrite list_lookup_alter_eq, (routes_keep_heap routes1 st3 Hr1), H3. simpl.
      unfold add_draw, add_draws. simpl. by rewrite <- app_assoc. }
    (* the publish *)
    cbn [run_pass pass_step]. split; [done|].
    unfold publish, slot. rewrite (routes_keep_heap routes2 st4 Hr2), H4. simpl.
    rewrite lookup_app_r, Nat.sub_diag by done. simpl.
    unfold status_overlay. simpl. by destruct flipped.
Qed.

Lemma toggle_detection_next_status_text_witness :
  let w := world_ok 1 in
  let st := exec [StartCamera webcam_ok; CaptureThread 0 w; CaptureThread 0 w;
                  CaptureThread 0 w] (initial true) in
  toggle_detection (initial true)
    = (initial true, [("status", PyStr "Camera is not running"); ("success", PyBool false)])
  /\ slot (fst (run_pass
                  [Advance w; Meanwhile ToggleDetection;
                   Meanwhile (GetStatus (Returns "192.168.1.20"));
                   Advance w; Meanwhile (StopCamera (Returns tt)); Advance w]
                  0 (Some AtStatus)
                  (fst (run_pass [Meanwhile (StartCamera webcam_ok); Advance w]
                          0 (Some AtDetect) (fst (toggle_detection st))))))
     = Some (add_draws [PutText "Detection: OFF" (10, 30) 80 (0, 0, 255) 2;
                        address_overlay (sock w) 480]
               {| pixels := 1; height := 480; drawn := [] |}).
Proof.
  intros w st.
  destruct toggle_detection_next_status_text as [Hstopped Hrunning].
  split; [exact (Hstopped (initial true) eq_refl)|].
  destruct (Hrunning st {| handle := 0; isOpened := true |}
              [Meanwhile (StartCamera webcam_ok); Advance w] 0%nat (Some AtDetect)
              0%nat {| pixels := 1; height := 480; drawn := [] |} w w w
              [ToggleDetection; GetStatus (Returns "192.168.1.20")]
              [StopCamera (Returns tt)] eq_refl)
    as (_ & _ & Hnext).
  destruct (Hnext eq_refl eq_refl eq_refl eq_refl) as [_ Hslot].
  exact Hslot.
Defined.

(** * Inside a resumption of the generator *)

(** A pass of [generate] is the locked block followed at once by the
    [yield], if the block left an encoded frame. *)
Lemma generate_is_two_points enc st g :
  point_of (generate enc st g)
  = match generate_point enc st (point_of g) with
    | Encoded encoded_frame => Suspended (multipart_chunk encoded_frame)
    | p => p
    end.
Proof.
  unfold generate, generate_point, generate_locked.
  destruct g; simpl; try done;
    (destruct (output_frame st); [|done]; destruct enc as [[[|] e]|]; done).
Qed.

Lemma generate_point_not_ended enc st g : g <> Ended -> generate_point enc st g <> Ended.
Proof.
  intros Hg. unfold generate_point.
  destruct g; try done; by destruct (generate_locked enc st).
Qed.

Lemma generate_points_empty_slot obs : forall g,
  g <> Ended ->
  Forall (fun o => output_frame (fst o) = None) obs ->
  fst (generate_points obs g) <> Ended
  /\ snd (generate_points obs g)
     = match g, obs with
       | Encoded encoded_frame, _ :: _ => [multipart_chunk encoded_frame]
       | _, _ => []
       end.
Proof.
  induction obs as [|[st enc] obs IH]; intros g Hg Hall.
  - split; [done|]. by destruct g.
  - apply Forall_cons in Hall as [Ho Hall]. simpl in Ho.
    cbn [generate_points].
    assert (generate_point enc st g
            = match g with
              | Encoded e => Suspended (multipart_chunk e)
              | _ => Polling
              end) as E.
    { unfold generate_point, generate_locked. rewrite Ho. by destruct g. }
    rewrite E.
    destruct g as [|e|c|]; [| | |done].
    + destruct (IH Polling ltac:(done) Hall) as [H1 H2].
      destruct (generate_points obs Polling) as [g2 chunks]; simpl in *.
      split; [done|]. rewrite H2. by destruct obs.
    + destruct (IH (Suspended (multipart_chunk e)) ltac:(done) Hall) as [H1 H2].
      destruct (generate_points obs (Suspended (multipart_chunk e))) as [g2 chunks];
        simpl in *.
      split; [done|]. rewrite H2. by destruct obs.
    + destruct (IH Polling ltac:(done) Hall) as [H1 H2].
      destruct (generate_points obs Polling) as [g2 chunks]; simpl in *.
      split; [done|]. rewrite H2. by destruct obs.
Qed.

(** C3, amended.  After a successful [stop_camera] the slot is empty.  A
    generator that has not returned, driven on for any length of time
    while the slot stays empty, does not return: it keeps polling the
    slot.  All it hands out in that time is the chunk it had already
    encoded under the lock when the stop came, if it had one. *)
Theorem generate_keeps_polling_after_stop
    (release : outcome unit) (st : State) (g : gen_point)
    (obs : list (State * outcome (bool * string))) :
  succeeded (snd (stop_camera release st)) = true ->
  g <> Ended ->
  Forall (fun o => output_frame (fst o) = None) obs ->
  output_frame (fst (stop_camera release st)) = None
  /\ fst (generate_points obs g) <> Ended
  /\ snd (generate_points obs g)
     = match g, obs with
       | Encoded encoded_frame, _ :: _ => [multipart_chunk encoded_frame]
       | _, _ => []
       end.
Proof.
  intros Hs Hg Hall.
  destruct (stop_camera_clears_slot release st Hs) as [Ho _].
  destruct (generate_points_empty_slot obs g Hg Hall) as [H1 H2].
  done.
Qed.

Lemma generate_keeps_polling_after_stop_witness :
  let st := fst (stop_camera (Returns tt) one_frame_published) in
  let in_flight := generate_point jpeg_ok one_frame_published Polling in
  in_flight = Encoded "JFIF"
  /\ snd (generate_points [(st, jpeg_ok); (st, jpeg_ok); (st, jpeg_ok); (st, jpeg_ok)]
            in_flight) = [multipart_chunk "JFIF"]
  /\ fst (generate_points [(st, jpeg_ok); (st, jpeg_ok); (st, jpeg_ok); (st, jpeg_ok)]
            in_flight) <> Ended.
Proof.
  intros st in_flight.
  assert (in_flight <> Ended) as Hg by discriminate.
  assert (Forall (fun o : State * outcome (bool * string) => output_frame (fst o) = None)
            [(st, jpeg_ok); (st, jpeg_ok); (st, jpeg_ok); (st, jpeg_ok)]) as Hall
    by (repeat constructor).
  destruct (generate_keeps_polling_after_stop (Returns tt) one_frame_published
              in_flight [(st, jpeg_ok); (st, jpeg_ok); (st, jpeg_ok); (st, jpeg_ok)]
              eq_refl Hg Hall) as (_ & H1 & H2).
  split; [reflexivity|]. split; [exact H2 | exact H1].
Defined.
